(** * LibSea serialisation engine (libsea.py): a shallow embedding

    The development follows [src/libsea.py]: Python text is [string], Python
    integers are [Z], ordered dictionaries are association lists in insertion
    order, and the code paths that raise are total functions into a result
    type that carries the exception. *)

From Stdlib Require Import String Ascii List ZArith Lia Bool.
From Stdlib Require Import DecimalString.
Import ListNotations.

Open Scope string_scope.
Open Scope Z_scope.

(** ** Characters and text primitives of the Python runtime *)

Module Py.

(** The characters the code names through escapes. *)
Definition LF : ascii := "010"%char.   (* '\n' *)
Definition CR : ascii := "013"%char.   (* '\r' *)
Definition TAB : ascii := "009"%char.  (* '\t' *)
Definition FF : ascii := "012"%char.   (* '\f' *)
Definition BS : ascii := "008"%char.   (* '\b' *)
Definition BACKSLASH : ascii := "092"%char.
Definition DQUOTE : ascii := "034"%char.
Definition BAR : ascii := "124"%char.
Definition SEMI : ascii := "059"%char.

Definition chr (c : ascii) : string := String c EmptyString.
Definition nl : string := chr LF.

(** [n * " "]: a non-positive count gives the empty text. *)
Fixpoint spaces_nat (n : nat) : string :=
  match n with
  | O => EmptyString
  | S k => String " "%char (spaces_nat k)
  end.

Definition spaces (amount : Z) : string := spaces_nat (Z.to_nat amount).

(** [s.split('\n')]: always at least one piece. *)
Fixpoint split_lines (s : string) : list string :=
  match s with
  | EmptyString => [EmptyString]
  | String c rest =>
      if Ascii.eqb c LF then EmptyString :: split_lines rest
      else match split_lines rest with
           | line :: more => String c line :: more
           | [] => [String c EmptyString]
           end
  end.

(** [sep.join(pieces)] *)
Fixpoint join (sep : string) (pieces : list string) : string :=
  match pieces with
  | [] => EmptyString
  | [p] => p
  | p :: rest => p ++ sep ++ join sep rest
  end.

(** Truth value of a text: non-empty. *)
Definition truthy (s : string) : bool :=
  match s with
  | EmptyString => false
  | String _ _ => true
  end.

(** [str(n)] for an integer: decimal digits, a minus sign when negative. *)
Definition str_int (z : Z) : string := NilZero.string_of_int (Z.to_int z).

(** [d.get(key, default)] and [d[key]] on a mapping with text keys. *)
Fixpoint dict_get {A : Type} (d : list (string * A)) (key : string) : option A :=
  match d with
  | [] => None
  | (k, v) :: rest => if String.eqb k key then Some v else dict_get rest key
  end.

(** [d[key] = v]: overwrite in place, or append as the newest key. *)
Fixpoint dict_set {A : Type} (d : list (string * A)) (key : string) (v : A)
  : list (string * A) :=
  match d with
  | [] => [(key, v)]
  | (k, w) :: rest =>
      if String.eqb k key then (k, v) :: rest else (k, w) :: dict_set rest key v
  end.

Definition dict_keys {A : Type} (d : list (string * A)) : list string := map fst d.

(** The same assignment on a mapping with integer keys. *)
Fixpoint int_dict_set {A : Type} (d : list (Z * A)) (key : Z) (v : A) : list (Z * A) :=
  match d with
  | [] => [(key, v)]
  | (k, w) :: rest =>
      if Z.eqb k key then (k, v) :: rest else (k, w) :: int_dict_set rest key v
  end.

(** [d.get(key)] on a mapping with integer keys. *)
Fixpoint int_dict_get {A : Type} (d : list (Z * A)) (key : Z) : option A :=
  match d with
  | [] => None
  | (k, v) :: rest => if Z.eqb k key then Some v else int_dict_get rest key
  end.

(** [len(x)] *)
Definition len {A : Type} (l : list A) : Z := Z.of_nat (List.length l).

End Py.

Import Py.

(** ** Indentation: [_indent] and the [indentable] decorator *)

Definition indent_line (amount : Z) (line : string) : string :=
  if truthy line then spaces amount ++ line else line.

Definition _indent (string : String.string) (amount : Z) : String.string :=
  if amount =? 0 then string
  else join nl (map (indent_line amount) (split_lines string)).

(** [indentable(func)]: run the wrapped renderer, then indent its result by
    the [indent] keyword (0 when absent). *)
Definition indentable {A : Type} (func : A -> string) (a : A) (indent : Z) : string :=
  _indent (func a) indent.

(** ** Floating-point text

    A float is given by its shortest round-trip decimal: sign, digits
    ([mantissa] in base ten) and power of ten.  [str_float] is the runtime's
    [str(float)]: scientific notation when the decimal point would fall at or
    before position -4 or after position 16, positional notation with at least
    one fractional digit otherwise. *)

Inductive pyfloat : Type :=
| FNan
| FInf (negative : bool)
| FFinite (negative : bool) (mantissa : N) (exponent : Z).

Definition zeros (k : Z) : string :=
  (fix go (n : nat) : string :=
     match n with O => EmptyString | S m => String "0"%char (go m) end) (Z.to_nat k).

Definition str_exponent (e : Z) : string :=
  let d := NilZero.string_of_uint (N.to_uint (Z.to_N (Z.abs e))) in
  (if e <? 0 then "-" else "+") ++ (if Z.abs e <? 10 then "0" ++ d else d).

Definition str_float (f : pyfloat) : string :=
  match f with
  | FNan => "nan"
  | FInf negative => (if negative then "-" else "") ++ "inf"
  | FFinite negative mantissa exponent =>
      let digits := NilZero.string_of_uint (N.to_uint mantissa) in
      let n := String.length digits in
      let decpt := Z.of_nat n + exponent in
      (if negative then "-" else "") ++
      (if (decpt <=? -4) || (16 <? decpt) then
         substring 0 1 digits
         ++ (if Nat.ltb 1 n then "." ++ substring 1 (n - 1) digits else "")
         ++ "e" ++ str_exponent (decpt - 1)
       else if decpt <=? 0 then "0." ++ zeros (- decpt) ++ digits
       else if decpt <? Z.of_nat n then
         substring 0 (Z.to_nat decpt) digits ++ "."
         ++ substring (Z.to_nat decpt) (n - Z.to_nat decpt) digits
       else digits ++ zeros (decpt - Z.of_nat n) ++ ".0")
  end.

(** ** Document model

    [pyval] is what a field of a document can hold: the native values the
    dispatcher [ser] recognises (text, float, int, list, mapping, tuple, None),
    a native bool (no branch of the dispatcher: it takes the fallback), and an
    instance of one of the [Element] classes.  A tuple carries its [_fields]
    (empty for a plain tuple).  Each scalar class holds the kind of value the
    code builds it with: text for [Value], [String] and [Identifier], a truth
    value for [Bool], a float for [Double], an int for [Integer]. *)

#[local] Unset Elimination Schemes.
Inductive pyval : Type :=
| PyStr (s : string)
| PyFloat (f : pyfloat)
| PyInt (z : Z)
| PyList (items : list pyval)
| PyDict (d : list (string * pyval))
| PyTuple (fields : list string) (items : list pyval)
| PyNone
| PyBool (b : bool)
| PyObj (e : Element)
with Element : Type :=
| Value (value : string)
| String (value : string)
| Bool (value : bool)
| Identifier (value : string)
| Double (value : pyfloat)
| Integer (value : Z)
| Tuple (names : list string) (values : list pyval)
| List (items : list pyval)
| Object (dict : list (string * pyval)).
#[local] Set Elimination Schemes.

Definition TERM : string := ";".

(** [Element._label] *)
Definition _label (name : string) (labels : bool) : string :=
  if labels then "@" ++ name ++ "=" else "".

(** [value.replace(old, new)] for a one-character [old]. *)
Fixpoint replace (old : ascii) (new : string) (s : string) : string :=
  match s with
  | EmptyString => EmptyString
  | String.String c rest =>
      if Ascii.eqb c old then new ++ replace old new rest
      else String.String c (replace old new rest)
  end.

(** [String.__init__]: CR becomes backslash r, then LF becomes backslash n. *)
Definition String_init (value : string) : Element :=
  String (replace LF (chr BACKSLASH ++ "n") (replace CR (chr BACKSLASH ++ "r") value)).

(** The character class of the pattern in [String.serialize]. *)
Definition escaped_class (c : ascii) : bool :=
  existsb (Ascii.eqb c) [BACKSLASH; DQUOTE; LF; CR; TAB; FF; BS; BAR].

(** [re.sub(class, backslash + match, s)] *)
Fixpoint re_sub_escape (s : string) : string :=
  match s with
  | EmptyString => EmptyString
  | String.String c rest =>
      if escaped_class c then String.String BACKSLASH (String.String c (re_sub_escape rest))
      else String.String c (re_sub_escape rest)
  end.

(** The text a String node built from [text] holds between its quotes. *)
Definition String_text (text : string) : string :=
  match String_init text with
  | String value => re_sub_escape value
  | _ => EmptyString
  end.

Section Render.
(** The dispatcher, as the renderers of the composite classes call it. *)
Variable ser : pyval -> bool -> Z -> string.

Definition String_serialize (value : string) : string :=
  chr DQUOTE ++ re_sub_escape value ++ chr DQUOTE.

Definition Bool_serialize (value : bool) : string :=
  if value then "T" else "F".

Definition Identifier_serialize (value : string) : string := "$" ++ value.

Definition Tuple_serialize (names : list string) (values : list pyval)
           (labels : bool) : string :=
  let rendered := map (fun value => ser value labels 0) values in
  match names with
  | _ :: _ =>
      "{" ++ join " " (map (fun '(name, r) => _label name labels ++ r ++ TERM)
                           (combine names rendered)) ++ "}"
  | [] => "{" ++ join " " (map (fun r => r ++ TERM) rendered) ++ "}"
  end.

Definition List_serialize (items : list pyval) (labels : bool) : string :=
  "[" ++ nl
  ++ join ("," ++ nl) (map (fun item => ser item labels 4) items)
  ++ nl ++ "]".

Definition Object_serialize (dict : list (string * pyval)) (labels : bool) : string :=
  "{" ++ nl
  ++ String.concat "" (map (fun '(key, value) =>
                              _indent (_label key labels ++ ser value labels 0
                                       ++ TERM ++ nl) 4) dict)
  ++ "}".

(** The body of the [serialize] method of each class. *)
Definition serialize_body (labels : bool) (e : Element) : string :=
  match e with
  | Value value => value
  | String value => String_serialize value
  | Bool value => Bool_serialize value
  | Identifier value => Identifier_serialize value
  | Double value => str_float value
  | Integer value => str_int value
  | Tuple names values => Tuple_serialize names values labels
  | List items => List_serialize items labels
  | Object dict => Object_serialize dict labels
  end.

(** [e.serialize(labels=..., indent=...)]: every method is [@indentable]. *)
Definition serialize_with (e : Element) (labels : bool) (indent : Z) : string :=
  indentable (serialize_body labels) e indent.
End Render.

(** [ser(obj, labels=..., indent=...)]: wrap a native value in its class and
    render it; a value with no [serialize] is rendered by [str], which drops
    both keywords.  The mapping test reads [collections.Mapping], so this is
    the function as it runs on the interpreters that still have that name
    (up to 3.9). *)
Fixpoint ser (obj : pyval) (labels : bool) (indent : Z) {struct obj} : string :=
  match obj with
  | PyStr s => serialize_with ser (String_init s) labels indent
  | PyFloat f => serialize_with ser (Double f) labels indent
  | PyInt z => serialize_with ser (Integer z) labels indent
  | PyList items => serialize_with ser (List items) labels indent
  | PyDict d => serialize_with ser (Object d) labels indent
  | PyTuple fields items => serialize_with ser (Tuple fields items) labels indent
  | PyNone => ""
  | PyBool true => "True"
  | PyBool false => "False"
  | PyObj e => serialize_with ser e labels indent
  end.

Definition serialize : Element -> bool -> Z -> string := serialize_with ser.

(** The wrapper the [if]/[elif] chain of [ser] selects; [None] for a value
    that keeps no [serialize] method (None itself is first replaced by the
    empty text) and is rendered by [str]. *)
Definition dispatch (obj : pyval) : option Element :=
  match obj with
  | PyStr s => Some (String_init s)
  | PyFloat f => Some (Double f)
  | PyInt z => Some (Integer z)
  | PyList items => Some (List items)
  | PyDict d => Some (Object d)
  | PyTuple fields items => Some (Tuple fields items)
  | PyNone => None
  | PyBool _ => None
  | PyObj e => Some e
  end.

(** [str(obj)] on the fallback path of [ser]. *)
Definition str_fallback (obj : pyval) : string :=
  match obj with
  | PyBool true => "True"
  | PyBool false => "False"
  | _ => ""
  end.

(** ** Exceptions *)

Inductive exn : Type :=
| AttributeError (attribute : string)
| KeyError (key : string)
| IndexError
| Exception (message : string).

Inductive result (A : Type) : Type :=
| Ok (a : A)
| Raise (e : exn).
Arguments Ok {A} a.
Arguments Raise {A} e.

Definition bind {A B : Type} (r : result A) (k : A -> result B) : result B :=
  match r with
  | Ok a => k a
  | Raise e => Raise e
  end.

Notation "x <- r ;; k" := (bind r (fun x => k))
  (at level 61, r at next level, right associativity).
Notation "' p <- r ;; k" := (bind r (fun x => let 'p := x in k))
  (at level 61, p pattern, r at next level, right associativity).

(** ** Records of the document *)

(** [Link = namedtuple('Link', ('source','destination'))] *)
Record Link : Type := { source : Z; destination : Z }.

Definition Link_val (l : Link) : pyval :=
  PyTuple ["source"; "destination"] [PyInt (source l); PyInt (destination l)].

(** [attrValue = namedtuple('attrValue', ('id', 'value'))] *)
Definition attrValue (id : Z) (value : pyval) : pyval :=
  PyTuple ["id"; "value"] [PyInt id; value].

(** [attributeDefinition()]: a fresh ordered mapping at every call. *)
Definition attributeDefinition : list (string * pyval) :=
  [("name", PyNone); ("type", PyNone); ("default", PyNone);
   ("nodeValues", PyList []); ("linkValues", PyList []); ("pathValues", PyList [])].

(** The [Graph] document.  [description] is not created by [__init__]: the
    field exists only once it has been assigned. *)
Record Graph : Type := {
  name : pyval;
  description : option pyval;
  nodes : list (string * Z);
  links : list Link;
  paths : list pyval;
  enums : list pyval;
  attributes : list (list (string * pyval));
  attribute_order : list (string * Z);
  qualifiers : list pyval
}.

(** [self.attributes], under a name that the local variable [attributes] of
    [from_graph] does not hide. *)
Definition Graph_attributes (self : Graph) : list (list (string * pyval)) :=
  attributes self.

(** [Graph.__init__] *)
Definition Graph_init (name : string) : Graph :=
  {| name := PyStr name; description := None; nodes := []; links := [];
     paths := []; enums := []; attributes := []; attribute_order := [];
     qualifiers := [] |}.

(** [Graph.print_var] *)
Definition print_var (name : string) (value : pyval) (labels : bool) (indent : Z)
  : string :=
  indentable (fun value => _label name labels ++ ser value labels 0 ++ TERM ++ nl)
             value indent.

Definition comment (comments : bool) (text : string) : string :=
  if comments then text else "".

(** The text [Graph.serialize] builds once [self.description] has been read. *)
Definition Graph_body (self : Graph) (description : pyval) (labels comments : bool)
  : string :=
  String.concat ""
    [ "Graph" ++ nl; "{" ++ nl;
      comment comments (_indent ("# Metadata" ++ nl) 4);
      print_var "name" (name self) labels 4;
      print_var "description" description labels 4;
      comment comments nl;
      comment comments (_indent ("# Lengths" ++ nl) 4);
      print_var "numNodes" (PyInt (len (nodes self))) labels 4;
      print_var "numLinks" (PyInt (len (links self))) labels 4;
      print_var "numPaths" (PyInt (len (paths self))) labels 4;
      print_var "numPathLinks" (PyInt 0) labels 4;
      comment comments nl;
      comment comments (_indent ("# Structural information" ++ nl) 4);
      print_var "links" (PyList (map Link_val (links self))) labels 4;
      print_var "paths" (PyList (paths self)) labels 4;
      comment comments nl;
      comment comments (_indent ("# Attributes" ++ nl) 4);
      print_var "enumerations" (PyList (enums self)) labels 4;
      print_var "attributeDefinitions" (PyList (map PyDict (attributes self))) labels 4;
      print_var "qualifiers" (PyList (qualifiers self)) labels 4;
      comment comments nl;
      comment comments (_indent ("# Visualization" ++ nl) 4);
      print_var "filters" PyNone labels 4;
      print_var "selectors" PyNone labels 4;
      print_var "displays" PyNone labels 4;
      print_var "presentations" PyNone labels 4;
      comment comments nl;
      comment comments (_indent ("# Interface" ++ nl) 4);
      print_var "presentationMenus" PyNone labels 4;
      print_var "displayMenus" PyNone labels 4;
      print_var "selectorMenus" PyNone labels 4;
      print_var "filterMenus" PyNone labels 4;
      print_var "attributeMenus" PyNone labels 4 ]
  ++ "}".

(** [Graph.serialize(labels=..., comments=..., indent=...)]: reading
    [self.description] raises when the field was never assigned. *)
Definition Graph_serialize (self : Graph) (labels comments : bool) (indent : Z)
  : result string :=
  match description self with
  | None => Raise (AttributeError "description")
  | Some d => Ok (indentable (fun self => Graph_body self d labels comments) self indent)
  end.

(** ** The external graph

    What [from_graph] consumes: [graph.graph_attr], [graph.nodes()] and
    [graph.edges()].  A node handle is its name (handles compare and hash as
    text); [attr] is the element's attribute mapping; an edge indexes to its
    two end handles. *)

Record Node : Type := { node_name : string; node_attr : list (string * string) }.

Record Edge : Type := {
  edge_0 : string;
  edge_1 : string;
  edge_attr : list (string * string)
}.

Record AGraph : Type := {
  graph_attr : list (string * string);
  graph_nodes : list Node;
  graph_edges : list Edge
}.

(** ** Graph assembly: [Graph.from_graph] *)

(** One entry of [attributes = defaultdict(lambda: defaultdict(dict))]. *)
Record bucket : Type := {
  nodeValues : list (Z * pyval);
  linkValues : list (Z * pyval)
}.

Definition empty_bucket : bucket := {| nodeValues := []; linkValues := [] |}.

(** [attributes[name]] on the defaultdict. *)
Definition bucket_of (attributes : list (string * bucket)) (name : string) : bucket :=
  match dict_get attributes name with
  | Some data => data
  | None => empty_bucket
  end.

(** [attributes[name]['nodeValues'][i] = value] *)
Definition set_nodeValue (attributes : list (string * bucket)) (name : string)
           (i : Z) (value : pyval) : list (string * bucket) :=
  let data := bucket_of attributes name in
  dict_set attributes name
    {| nodeValues := int_dict_set (nodeValues data) i value;
       linkValues := linkValues data |}.

(** [attributes[name]['linkValues'][i] = value] *)
Definition set_linkValue (attributes : list (string * bucket)) (name : string)
           (i : Z) (value : pyval) : list (string * bucket) :=
  let data := bucket_of attributes name in
  dict_set attributes name
    {| nodeValues := nodeValues data;
       linkValues := int_dict_set (linkValues data) i value |}.

(** The two tests on a looked-up attribute value. *)
Definition convert (value : string) : pyval :=
  if String.eqb value "True" then PyObj (Value "T")
  else if String.eqb value "False" then PyObj (Value "F")
  else PyStr value.

(** [for attribute_name in x.attr: value = x.attr[attribute_name]; ...] *)
Fixpoint attr_loop (set : list (string * bucket) -> string -> Z -> pyval ->
                          list (string * bucket))
         (attr : list (string * string)) (todo : list string) (i : Z)
         (attributes : list (string * bucket)) : result (list (string * bucket)) :=
  match todo with
  | [] => Ok attributes
  | attribute_name :: rest =>
      match dict_get attr attribute_name with
      | None => Raise (KeyError attribute_name)
      | Some value =>
          attr_loop set attr rest i (set attributes attribute_name i (convert value))
      end
  end.

(** [for i, node in enumerate(graph.nodes()): ...] *)
Fixpoint node_loop (todo : list Node) (i : Z) (node_order : list (string * Z))
         (attributes : list (string * bucket))
  : result (list (string * Z) * list (string * bucket)) :=
  match todo with
  | [] => Ok (node_order, attributes)
  | node :: rest =>
      let node_order := dict_set node_order (node_name node) i in
      attributes <- attr_loop set_nodeValue (node_attr node)
                              (dict_keys (node_attr node)) i attributes ;;
      node_loop rest (i + 1) node_order attributes
  end.

(** [node_order[handle]] *)
Definition node_id (node_order : list (string * Z)) (handle : string) : result Z :=
  match dict_get node_order handle with
  | Some i => Ok i
  | None => Raise (KeyError handle)
  end.

(** [for i, edge in enumerate(graph.edges()): ...] *)
Fixpoint edge_loop (todo : list Edge) (i : Z) (node_order : list (string * Z))
         (links : list Link) (attributes : list (string * bucket))
  : result (list Link * list (string * bucket)) :=
  match todo with
  | [] => Ok (links, attributes)
  | edge :: rest =>
      id1 <- node_id node_order (edge_0 edge) ;;
      id2 <- node_id node_order (edge_1 edge) ;;
      let links := (links ++ [{| source := id1; destination := id2 |}])%list in
      attributes <- attr_loop set_linkValue (edge_attr edge)
                              (dict_keys (edge_attr edge)) i attributes ;;
      edge_loop rest (i + 1) node_order links attributes
  end.

(** The record built for one attribute name. *)
Definition definition_of (name : string) (data : bucket) : list (string * pyval) :=
  let attr := attributeDefinition in
  let attr := dict_set attr "name" (PyObj (Identifier name)) in
  let attr := dict_set attr "type" (PyObj (Value "string")) in
  let attr := dict_set attr "nodeValues"
                (PyList (map (fun '(id, value) => attrValue id value) (nodeValues data))) in
  let attr := dict_set attr "linkValues"
                (PyList (map (fun '(id, value) => attrValue id value) (linkValues data))) in
  attr.

(** [for i, name in enumerate(attributes): ...], appending to
    [LibSea.attributes] and filling [LibSea.attribute_order]. *)
Fixpoint definition_loop (attributes : list (string * bucket)) (todo : list string)
         (i : Z) (defs : list (list (string * pyval))) (order : list (string * Z))
  : list (list (string * pyval)) * list (string * Z) :=
  match todo with
  | [] => (defs, order)
  | name :: rest =>
      let data := bucket_of attributes name in
      definition_loop attributes rest (i + 1)
                      (defs ++ [definition_of name data])%list (dict_set order name i)
  end.

(** [order[name]] *)
Definition attribute_index (order : list (string * Z)) (name : string) : result Z :=
  match dict_get order name with
  | Some i => Ok i
  | None => Raise (KeyError name)
  end.

(** [defs[i]['type'] = value]; a negative index counts from the end. *)
Definition set_type (defs : list (list (string * pyval))) (i : Z) (value : pyval)
  : result (list (list (string * pyval))) :=
  let j := if i <? 0 then i + len defs else i in
  if (j <? 0) || (len defs <=? j) then Raise IndexError
  else Ok (firstn (Z.to_nat j) defs
           ++ match nth_error defs (Z.to_nat j) with
              | Some attr => [dict_set attr "type" value]
              | None => []
              end
           ++ skipn (S (Z.to_nat j)) defs)%list.

(** The qualifier appended at the end of assembly. *)
Definition spanning_tree (root tree_link : Z) : pyval :=
  PyDict
    [("type", PyObj (Identifier "spanning_tree"));
     ("name", PyObj (Identifier "default_spanning_tree"));
     ("description", PyStr "Spanning tree for walrus");
     ("attributes",
      PyList [PyTuple [] [PyInt root; PyObj (Identifier "root")];
              PyTuple [] [PyInt tree_link; PyObj (Identifier "tree_link")]])].

(** [graph.graph_attr.get(key, default)] *)
Definition get_default (d : list (string * string)) (key default : string) : string :=
  match dict_get d key with
  | Some v => v
  | None => default
  end.

(** The two scanning loops with the collision test between them. *)
Definition scan (graph : AGraph)
  : result (list (string * Z) * list Link * list (string * bucket)) :=
  '(node_order, attributes) <- node_loop (graph_nodes graph) 0 [] [] ;;
  if negb (len node_order =? len (graph_nodes graph))
  then Raise (Exception "Node collision")
  else
    '(links, attributes) <- edge_loop (graph_edges graph) 0 node_order [] attributes ;;
    Ok (node_order, links, attributes).

(** The part of [from_graph] after the scanning loops: the attribute
    definitions, the two forced type tags and the qualifier. *)
Definition materialize (LibSea : Graph) (node_order : list (string * Z))
           (links : list Link) (attributes : list (string * bucket)) : result Graph :=
  let '(defs, order) :=
    definition_loop attributes (dict_keys attributes) 0
                    (Graph_attributes LibSea) (attribute_order LibSea) in
  root <- attribute_index order "root" ;;
  defs <- set_type defs root (PyObj (Value "bool")) ;;
  tree_link <- attribute_index order "tree_link" ;;
  defs <- set_type defs tree_link (PyObj (Value "bool")) ;;
  root <- attribute_index order "root" ;;
  tree_link <- attribute_index order "tree_link" ;;
  Ok {| name := name LibSea;
        description := description LibSea;
        nodes := node_order;
        links := links;
        paths := paths LibSea;
        enums := enums LibSea;
        attributes := defs;
        attribute_order := order;
        qualifiers := (qualifiers LibSea ++ [spanning_tree root tree_link])%list |}.

Definition from_graph (graph : AGraph) : result Graph :=
  let LibSea := Graph_init "Graph" in
  let LibSea :=
    {| name := PyStr (get_default (graph_attr graph) "name" "Graph");
       description :=
         Some (PyStr (get_default (graph_attr graph) "description"
                                  "Generated by libsea.py"));
       nodes := nodes LibSea; links := links LibSea; paths := paths LibSea;
       enums := enums LibSea; attributes := Graph_attributes LibSea;
       attribute_order := attribute_order LibSea;
       qualifiers := qualifiers LibSea |} in
  '(node_order, links, attributes) <- scan graph ;;
  materialize LibSea node_order links attributes.

(** Is the attribute name found on some node or some edge? *)
Definition discovered (graph : AGraph) (attribute_name : string) : Prop :=
  (exists node, In node (graph_nodes graph)
                /\ In attribute_name (dict_keys (node_attr node)))
  \/ (exists edge, In edge (graph_edges graph)
                   /\ In attribute_name (dict_keys (edge_attr edge))).

(** ** Predicates on rendered text *)

(** Does the character occur in the text? *)
Fixpoint contains (c : ascii) (s : string) : bool :=
  match s with
  | EmptyString => false
  | String.String d rest => Ascii.eqb d c || contains c rest
  end.

Definition starts_with (c : ascii) (s : string) : bool :=
  match s with
  | EmptyString => false
  | String.String d _ => Ascii.eqb d c
  end.

Fixpoint ends_with (c : ascii) (s : string) : bool :=
  match s with
  | EmptyString => false
  | String.String d EmptyString => Ascii.eqb d c
  | String.String _ rest => ends_with c rest
  end.

(** The contract of [Element.serialize] on its return value. *)
Definition well_delimited (s : string) : bool :=
  negb (starts_with LF s) && negb (ends_with LF s) && negb (ends_with SEMI s).

(** What [serialize] leaves of the contract for the two classes that emit
    their text verbatim: every other class brackets or generates its text. *)
Definition raw_text_ok (e : Element) : bool :=
  match e with
  | Value value => well_delimited value
  | Identifier value => negb (ends_with LF value) && negb (ends_with SEMI value)
  | _ => true
  end.

(** ** Reading the assembly state *)

(** [attributes[name]['nodeValues'].get(i)] and the same for links. *)
Definition node_value (attributes : list (string * bucket)) (name : string) (i : Z)
  : option pyval :=
  int_dict_get (nodeValues (bucket_of attributes name)) i.

Definition link_value (attributes : list (string * bucket)) (name : string) (i : Z)
  : option pyval :=
  int_dict_get (linkValues (bucket_of attributes name)) i.

(** The [node_order] part of [node_loop] on its own: one assignment
    [node_order[handle] = i] per handle, counting from [i]. *)
Fixpoint number (handles : list string) (i : Z) (node_order : list (string * Z))
  : list (string * Z) :=
  match handles with
  | [] => node_order
  | handle :: rest => number rest (i + 1) (dict_set node_order handle i)
  end.

(** [list(zip(handles, itertools.count(i)))] *)
Fixpoint enumerate_from (i : Z) (handles : list string) : list (string * Z) :=
  match handles with
  | [] => []
  | handle :: rest => (handle, i) :: enumerate_from (i + 1) rest
  end.

Definition handles (graph : AGraph) : list string :=
  map node_name (graph_nodes graph).

(** ** A small graph to run the assembly on *)

Definition example_graph : AGraph :=
  {| graph_attr := [("name", "demo")];
     graph_nodes :=
       [ {| node_name := "a"; node_attr := [("root", "True"); ("color", "red")] |};
         {| node_name := "b"; node_attr := [("root", "False")] |};
         {| node_name := "c"; node_attr := [] |} ];
     graph_edges :=
       [ {| edge_0 := "a"; edge_1 := "b"; edge_attr := [("tree_link", "True")] |};
         {| edge_0 := "b"; edge_1 := "c";
            edge_attr := [("tree_link", "False"); ("weight", "3")] |} ] |}.

(** The same graph without any [tree_link] attribute, and one whose node
    iterator yields the handle [a] twice. *)
Definition example_no_tree_link : AGraph :=
  {| graph_attr := [];
     graph_nodes := graph_nodes example_graph;
     graph_edges :=
       [ {| edge_0 := "a"; edge_1 := "b"; edge_attr := [("weight", "1")] |} ] |}.

(** Three nodes and two edges with no attribute at all. *)
Definition example_plain : AGraph :=
  {| graph_attr := [];
     graph_nodes :=
       [ {| node_name := "a"; node_attr := [] |};
         {| node_name := "b"; node_attr := [] |};
         {| node_name := "c"; node_attr := [] |} ];
     graph_edges :=
       [ {| edge_0 := "a"; edge_1 := "b"; edge_attr := [] |};
         {| edge_0 := "b"; edge_1 := "c"; edge_attr := [] |} ] |}.

Definition example_collision : AGraph :=
  {| graph_attr := [];
     graph_nodes :=
       [ {| node_name := "a"; node_attr := [("root", "True")] |};
         {| node_name := "b"; node_attr := [] |};
         {| node_name := "a"; node_attr := [("tree_link", "True")] |} ];
     graph_edges := [] |}.

(** The graph of [example_graph] with one more node attribute, whose name
    ends in the record terminator. *)
Definition example_terminator_name : AGraph :=
  {| graph_attr := [];
     graph_nodes :=
       [ {| node_name := "a"; node_attr := [("root", "True"); ("a;", "1")] |};
         {| node_name := "b"; node_attr := [("root", "False")] |} ];
     graph_edges :=
       [ {| edge_0 := "a"; edge_1 := "b"; edge_attr := [("tree_link", "True")] |} ] |}.

(** The graph of [example_graph] with the graph attribute [description]. *)
Definition example_described : AGraph :=
  {| graph_attr := [("name", "demo"); ("description", "A demo graph")];
     graph_nodes := graph_nodes example_graph;
     graph_edges := graph_edges example_graph |}.

(** ** Reading an escaped text back *)

(** The reader's side of [re_sub_escape]: a backslash is dropped and the
    character behind it is taken as it is. *)
Fixpoint unescape (s : string) : string :=
  match s with
  | EmptyString => EmptyString
  | String.String c rest =>
      if Ascii.eqb c BACKSLASH then
        match rest with
        | EmptyString => EmptyString
        | String.String d rest' => String.String d (unescape rest')
        end
      else String.String c (unescape rest)
  end.

(** ** The attribute table, as read off the graph *)


(** A name joins the names seen so far at the end, unless it is there. *)
Definition seen_add (seen : list string) (name : string) : list string :=
  if existsb (String.eqb name) seen then seen else (seen ++ [name])%list.





(** Every end of every edge is one of the graph's node handles. *)
Definition ends_known (graph : AGraph) : Prop :=
  forall edge, In edge (graph_edges graph) ->
               In (edge_0 edge) (handles graph) /\ In (edge_1 edge) (handles graph).

(** * Properties *)

(** ** The renderers on the sample values of the specification *)

Example decimal_text : (str_int 0, str_int 42, str_int (-7)) = ("0", "42", "-7").
Proof. reflexivity. Qed.

Example float_text :
  map str_float [FFinite false 15 (-1); FFinite false 1 16; FFinite false 1 (-5);
                 FFinite true 0 0; FFinite false 1234567890123456 0; FInf true]
  = ["1.5"; "1e+16"; "1e-05"; "-0.0"; "1234567890123456.0"; "-inf"].
Proof. reflexivity. Qed.

Example Bool_text : (serialize (Bool true) false 0, serialize (Bool false) false 0) = ("T", "F").
Proof. reflexivity. Qed.

Example Identifier_text : serialize (Identifier "root") false 0 = "$root".
Proof. reflexivity. Qed.

Example Tuple_text :
  serialize (Tuple ["a"; "b"] [PyInt 1; PyInt 2]) true 0 = "{@a=1; @b=2;}".
Proof. reflexivity. Qed.

Example Object_text :
  serialize (Object [("k", PyStr "v")]) true 0
  = "{" ++ nl ++ "    @k=" ++ chr DQUOTE ++ "v" ++ chr DQUOTE ++ ";" ++ nl ++ "}".
Proof. reflexivity. Qed.

Example indent_text :
  _indent ("a" ++ nl ++ nl ++ "b") 2 = "  a" ++ nl ++ nl ++ "  b".
Proof. reflexivity. Qed.

(** ** Text primitives *)

Lemma split_lines_cons (s : string) :
  exists line more, split_lines s = line :: more.
Proof.
  induction s as [|c rest IH]; simpl.
  - now exists EmptyString, [].
  - destruct IH as (line & more & E). rewrite E.
    destruct (Ascii.eqb c LF); eauto.
Qed.

Lemma join_cons_char (sep : string) (c : ascii) (line : string) (more : list string) :
  join sep (String.String c line :: more) = String.String c (join sep (line :: more)).
Proof. destruct more; reflexivity. Qed.

Lemma join_split_lines (s : string) : join nl (split_lines s) = s.
Proof.
  induction s as [|c rest IH]; simpl; [reflexivity|].
  destruct (split_lines_cons rest) as (line & more & E).
  rewrite E in *. destruct (Ascii.eqb_spec c LF) as [->|_].
  - change (join nl (EmptyString :: line :: more))
      with (EmptyString ++ nl ++ join nl (line :: more)).
    rewrite IH. reflexivity.
  - rewrite join_cons_char, IH. reflexivity.
Qed.

Lemma split_lines_plain (s : string) :
  contains LF s = false -> split_lines s = [s].
Proof.
  induction s as [|c rest IH]; simpl; [reflexivity|].
  intros H. apply orb_false_iff in H as [Hc Hr].
  rewrite Hc, (IH Hr). reflexivity.
Qed.

Lemma split_lines_app (line rest : string) :
  contains LF line = false ->
  split_lines (line ++ String.String LF rest) = line :: split_lines rest.
Proof.
  induction line as [|c line IH]; simpl; intros H.
  - reflexivity.
  - apply orb_false_iff in H as [Hc Hr]. rewrite Hc, (IH Hr). reflexivity.
Qed.

Lemma split_lines_join (pieces : list string) :
  pieces <> [] ->
  Forall (fun p => contains LF p = false) pieces ->
  split_lines (join nl pieces) = pieces.
Proof.
  induction pieces as [|p rest IH]; [congruence|].
  intros _ H. inversion H as [|? ? Hp Hrest]; subst.
  destruct rest as [|q rest'].
  - simpl. now apply split_lines_plain.
  - change (join nl (p :: q :: rest'))
      with (p ++ String.String LF (join nl (q :: rest'))).
    rewrite split_lines_app by assumption.
    rewrite IH by (assumption || congruence). reflexivity.
Qed.

Lemma split_lines_clean (s : string) :
  Forall (fun p => contains LF p = false) (split_lines s).
Proof.
  induction s as [|c rest IH]; simpl.
  - constructor; [reflexivity | constructor].
  - destruct (split_lines_cons rest) as (line & more & E). rewrite E in *.
    inversion IH; subst.
    destruct (Ascii.eqb c LF) eqn:Hc.
    + constructor; [reflexivity | now constructor].
    + constructor; [simpl; now rewrite Hc | assumption].
Qed.

Lemma contains_app (c : ascii) (a b : string) :
  contains c (a ++ b) = contains c a || contains c b.
Proof.
  induction a as [|d a IH]; simpl; [reflexivity|].
  now rewrite IH, orb_assoc.
Qed.

Lemma contains_spaces_nat (n : nat) : contains LF (spaces_nat n) = false.
Proof. induction n; simpl; auto. Qed.

Lemma length_spaces_nat (n : nat) : String.length (spaces_nat n) = n.
Proof. induction n; simpl; auto. Qed.

Lemma indent_line_clean (amount : Z) (line : string) :
  contains LF line = false -> contains LF (indent_line amount line) = false.
Proof.
  intros H. unfold indent_line, spaces. destruct (truthy line); [|assumption].
  now rewrite contains_app, contains_spaces_nat, H.
Qed.

Lemma indent_line_zero_width (amount : Z) (line : string) :
  amount <= 0 -> indent_line amount line = line.
Proof.
  intros H. unfold indent_line, spaces.
  replace (Z.to_nat amount) with O by lia. now destruct (truthy line).
Qed.

Lemma map_indent_line_zero_width (amount : Z) (pieces : list string) :
  amount <= 0 -> map (indent_line amount) pieces = pieces.
Proof.
  intros H. induction pieces as [|p rest IH]; simpl; [reflexivity|].
  now rewrite IH, indent_line_zero_width.
Qed.

Lemma split_lines_indent (text : string) (amount : Z) :
  split_lines (_indent text amount) = map (indent_line amount) (split_lines text).
Proof.
  unfold _indent. destruct (Z.eqb_spec amount 0) as [->|_].
  - now rewrite map_indent_line_zero_width by lia.
  - apply split_lines_join.
    + destruct (split_lines_cons text) as (l & m & E). rewrite E. discriminate.
    + apply Forall_map. eapply Forall_impl; [|apply split_lines_clean].
      intros p. apply indent_line_clean.
Qed.

Lemma indent_zero (text : string) : _indent text 0 = text.
Proof. reflexivity. Qed.

Lemma indent_zero_width (text : string) (amount : Z) :
  amount <= 0 -> _indent text amount = text.
Proof.
  intros H. unfold _indent. destruct (amount =? 0); [reflexivity|].
  now rewrite map_indent_line_zero_width, join_split_lines.
Qed.

(** ** C6: indentation *)

(** C6.  Line by line, [_indent text amount] is [text] with every non-empty
    line prefixed by [amount] spaces (none when [amount] is not positive) and
    every empty line kept as it is; the prefix is made of spaces only and is
    [amount] characters long; with amount 0 the text comes back unchanged;
    and a renderer wrapped by [indentable] returns its unindented result put
    through this function. *)
Theorem indent_prefixes_nonempty_lines (text : string) (amount : Z) :
  split_lines (_indent text amount)
  = map (fun line => match line with
                     | EmptyString => EmptyString
                     | _ => spaces amount ++ line
                     end) (split_lines text)
  /\ String.length (spaces amount) = Z.to_nat amount
  /\ (forall c, contains c (spaces amount) = true -> c = " "%char)
  /\ _indent text 0 = text
  /\ (forall (A : Type) (func : A -> string) (a : A),
        indentable func a amount = _indent (func a) amount
        /\ indentable func a 0 = func a)
  /\ (forall (e : Element) (labels : bool),
        serialize e labels amount = _indent (serialize e labels 0) amount).
Proof.
  split; [|split; [|split; [|split; [|split]]]].
  - rewrite split_lines_indent. apply map_ext. intros [|c l]; reflexivity.
  - apply length_spaces_nat.
  - unfold spaces.
    induction (Z.to_nat amount) as [|n IH]; cbn [spaces_nat contains]; intros c H.
    + discriminate.
    + apply orb_true_iff in H as [H|H]; [|auto].
      apply Ascii.eqb_eq in H. now symmetry.
  - reflexivity.
  - intros A func a. split; reflexivity.
  - intros e labels. unfold serialize, serialize_with, indentable.
    now rewrite indent_zero.
Qed.

(** ** Delimiters of rendered text *)

Lemma ends_with_app (c d : ascii) (a b : string) :
  ends_with c (a ++ String.String d b) = ends_with c (String.String d b).
Proof.
  induction a as [|x a IH]; [reflexivity|].
  rewrite <- IH. destruct a; reflexivity.
Qed.

Lemma ends_with_contains (c : ascii) (s : string) :
  contains c s = false -> ends_with c s = false.
Proof.
  induction s as [|d s IH]; [reflexivity|].
  cbn [contains]. intros H. apply orb_false_iff in H as [Hd Hs].
  destruct s; [exact Hd | now apply IH].
Qed.

Lemma starts_with_contains (c : ascii) (s : string) :
  contains c s = false -> starts_with c s = false.
Proof.
  destruct s as [|d s]; [reflexivity|].
  cbn [contains starts_with]. intros H. now apply orb_false_iff in H.
Qed.

Lemma well_delimited_clean (s : string) :
  contains LF s = false -> contains SEMI s = false -> well_delimited s = true.
Proof.
  intros H1 H2. unfold well_delimited.
  now rewrite (starts_with_contains _ _ H1), (ends_with_contains _ _ H1),
    (ends_with_contains _ _ H2).
Qed.

Lemma append_assoc (a b c : string) : a ++ (b ++ c) = (a ++ b) ++ c.
Proof. induction a as [|x a IH]; simpl; [reflexivity | now rewrite IH]. Qed.

Lemma append_empty_r (a : string) : a ++ "" = a.
Proof. induction a as [|x a IH]; simpl; [reflexivity | now rewrite IH]. Qed.

Lemma well_delimited_closed (body : string) (c : ascii) :
  starts_with LF (body ++ String.String c EmptyString) = false ->
  Ascii.eqb c LF = false -> Ascii.eqb c SEMI = false ->
  well_delimited (body ++ String.String c EmptyString) = true.
Proof.
  intros Ho Hl Hs. unfold well_delimited.
  rewrite Ho, !ends_with_app. cbn [ends_with]. now rewrite Hl, Hs.
Qed.

(** Decimal digits hold neither a line feed nor a terminator. *)
Lemma digits_clean (d : Decimal.uint) :
  contains LF (NilEmpty.string_of_uint d) = false
  /\ contains SEMI (NilEmpty.string_of_uint d) = false.
Proof. induction d; simpl; tauto. Qed.

Lemma digits_zero_clean (d : Decimal.uint) :
  contains LF (NilZero.string_of_uint d) = false
  /\ contains SEMI (NilZero.string_of_uint d) = false.
Proof. destruct d; try exact (conj eq_refl eq_refl); apply digits_clean. Qed.

Lemma str_int_clean (z : Z) :
  contains LF (str_int z) = false /\ contains SEMI (str_int z) = false.
Proof.
  unfold str_int, NilZero.string_of_int.
  destruct (Z.to_int z) as [d|d]; cbn [contains];
    destruct (digits_zero_clean d) as [H1 H2]; now rewrite ?H1, ?H2.
Qed.

Lemma contains_substring (c : ascii) (s : string) (n m : nat) :
  contains c s = false -> contains c (substring n m s) = false.
Proof.
  revert n m. induction s as [|d s IH]; intros n m H.
  - destruct n, m; reflexivity.
  - cbn [contains] in H. apply orb_false_iff in H as [Hd Hs].
    destruct n as [|n]; [destruct m as [|m]|]; cbn [substring contains].
    + reflexivity.
    + now rewrite Hd, IH.
    + now apply IH.
Qed.

Lemma zeros_clean (k : Z) :
  contains LF (zeros k) = false /\ contains SEMI (zeros k) = false.
Proof. unfold zeros. induction (Z.to_nat k); simpl; tauto. Qed.

Lemma str_exponent_clean (e : Z) :
  contains LF (str_exponent e) = false /\ contains SEMI (str_exponent e) = false.
Proof.
  unfold str_exponent.
  destruct (digits_zero_clean (N.to_uint (Z.to_N (Z.abs e)))) as [H1 H2].
  destruct (e <? 0), (Z.abs e <? 10); cbn [append contains];
    rewrite ?H1, ?H2; split; reflexivity.
Qed.

Lemma str_float_clean (f : pyfloat) :
  contains LF (str_float f) = false /\ contains SEMI (str_float f) = false.
Proof.
  destruct f as [|negative|negative mantissa exponent].
  - split; reflexivity.
  - destruct negative; split; reflexivity.
  - unfold str_float.
    set (digits := NilZero.string_of_uint (N.to_uint mantissa)).
    destruct (digits_zero_clean (N.to_uint mantissa)) as [D1 D2].
    fold digits in D1, D2.
    set (n := String.length digits). set (decpt := Z.of_nat n + exponent).
    destruct (str_exponent_clean (decpt - 1)) as [E1 E2].
    destruct (zeros_clean (- decpt)) as [Z1 Z2].
    destruct (zeros_clean (decpt - Z.of_nat n)) as [Y1 Y2].
    assert (S1 : forall a b, contains LF (substring a b digits) = false)
      by (intros; now apply contains_substring).
    assert (S2 : forall a b, contains SEMI (substring a b digits) = false)
      by (intros; now apply contains_substring).
    destruct negative, ((decpt <=? -4) || (16 <? decpt)), (Nat.ltb 1 n),
      (decpt <=? 0), (decpt <? Z.of_nat n);
      rewrite ?contains_app; cbn [contains append];
      rewrite ?contains_app; cbn [contains append];
      rewrite ?S1, ?S2, ?D1, ?D2, ?E1, ?E2, ?Z1, ?Z2, ?Y1, ?Y2;
      split; reflexivity.
Qed.

(** ** C7: the contract on the rendered text *)

Lemma well_delimited_dollar (value : string) :
  well_delimited ("$" ++ value)
  = negb (ends_with LF value) && negb (ends_with SEMI value).
Proof.
  unfold well_delimited. destruct value as [|c rest]; [reflexivity|].
  reflexivity.
Qed.

Lemma Graph_body_well_delimited (self : Graph) (d : pyval) (labels comments : bool) :
  well_delimited (Graph_body self d labels comments) = true.
Proof. unfold Graph_body. now apply well_delimited_closed. Qed.

(** C7.  At indent 0 and for either value of the labels flag, the text of a
    String, Bool, Double, Integer, Tuple, List or Object node has no leading
    line feed, no trailing line feed and no trailing terminator, and neither
    has the text of a Graph whose description is set.  The Identifier class
    does not keep this contract, which the docstring of [Element.serialize]
    sets for every class: its text is the stored name behind a dollar sign,
    with nothing escaped or checked, so it keeps the contract exactly when
    the name does not end in a line feed or a terminator (and the same holds
    of a bare Value).  For the name [a;] the text is [$a;], which ends in
    the terminator; for the name [a] followed by a line feed the text ends
    in that line feed.  Such an Identifier is made by [from_graph] itself,
    from an attribute name: the last part is a graph with a node attribute
    named [a;], whose definition in the returned document carries it. *)
Theorem serialize_well_delimited (e : Element) (labels : bool) :
  well_delimited (serialize e labels 0) = raw_text_ok e
  /\ (forall (self : Graph) (d : pyval) (comments : bool),
        description self = Some d ->
        exists text, Graph_serialize self labels comments 0 = Ok text
                     /\ well_delimited text = true)
  /\ (serialize (Identifier "a;") labels 0 = "$a;"
      /\ ends_with SEMI (serialize (Identifier "a;") labels 0) = true
      /\ well_delimited (serialize (Identifier "a;") labels 0) = false)
  /\ (serialize (Identifier ("a" ++ nl)) labels 0 = "$a" ++ nl
      /\ ends_with LF (serialize (Identifier ("a" ++ nl)) labels 0) = true
      /\ well_delimited (serialize (Identifier ("a" ++ nl)) labels 0) = false)
  /\ (exists doc definition,
        from_graph example_terminator_name = Ok doc
        /\ nth_error (attributes doc) 1 = Some definition
        /\ dict_get definition "name" = Some (PyObj (Identifier "a;"))).
Proof.
  split; [|split; [|split; [|split]]].
  - unfold serialize, serialize_with, indentable, serialize_body. rewrite indent_zero.
    destruct e as [v|v|b|v|f|z|names values|items|dict]; cbn [raw_text_ok].
    + reflexivity.
    + unfold String_serialize, chr. rewrite append_assoc.
      now apply well_delimited_closed.
    + now destruct b.
    + apply well_delimited_dollar.
    + destruct (str_float_clean f). now apply well_delimited_clean.
    + destruct (str_int_clean z). now apply well_delimited_clean.
    + unfold Tuple_serialize.
      destruct names; rewrite append_assoc; now apply well_delimited_closed.
    + unfold List_serialize. rewrite !append_assoc.
      now apply well_delimited_closed.
    + unfold Object_serialize. rewrite !append_assoc.
      now apply well_delimited_closed.
  - intros self d comments Hd. unfold Graph_serialize. rewrite Hd.
    eexists; split; [reflexivity|]. unfold indentable. rewrite indent_zero.
    apply Graph_body_well_delimited.
  - destruct labels; repeat split; reflexivity.
  - destruct labels; repeat split; reflexivity.
  - eexists. eexists. split; [reflexivity|]. split; reflexivity.
Qed.

(** ** C1: the String scalar *)

Lemma replace_absent (old : ascii) (new text : string) :
  contains old text = false -> replace old new text = text.
Proof.
  induction text as [|c rest IH]; [reflexivity|].
  cbn [contains replace]. intros H. apply orb_false_iff in H as [Hc Hr].
  now rewrite Hc, IH.
Qed.

(** What the render-time substitution does, character by character: a
    character of the class comes out behind one backslash, any other
    character comes out alone. *)
Lemma re_sub_escape_app (a b : string) :
  re_sub_escape (a ++ b) = re_sub_escape a ++ re_sub_escape b.
Proof.
  induction a as [|c a IH]; [reflexivity|].
  cbn [append re_sub_escape]. rewrite IH. now destruct (escaped_class c).
Qed.

Lemma replace_app (old : ascii) (new a b : string) :
  replace old new (a ++ b) = replace old new a ++ replace old new b.
Proof.
  induction a as [|c a IH]; [reflexivity|].
  cbn [append replace]. rewrite IH.
  destruct (Ascii.eqb c old); [now rewrite append_assoc | reflexivity].
Qed.

Lemma String_text_app (a b : string) :
  String_text (a ++ b) = String_text a ++ String_text b.
Proof.
  unfold String_text, String_init.
  now rewrite !replace_app, re_sub_escape_app.
Qed.

Lemma String_serialize_text (text : string) (labels : bool) :
  serialize (String_init text) labels 0 = chr DQUOTE ++ String_text text ++ chr DQUOTE.
Proof. reflexivity. Qed.

(** C1.  On a text with no line feed and no carriage return the String
    scalar renders as the claim says: between double quotes, each character
    of the class behind exactly one backslash.  A line feed or a carriage
    return does not: the constructor has already turned it into a backslash
    and a letter, and the render-time pass escapes that backslash again, so
    wherever it stands in the text it comes out as two backslashes and the
    letter -- the same text as the rendering of a literal backslash followed
    by that letter. *)
Theorem String_line_break_escaped_twice :
  (forall (text : string) (labels : bool),
      contains LF text = false -> contains CR text = false ->
      serialize (String_init text) labels 0
      = chr DQUOTE ++ re_sub_escape text ++ chr DQUOTE)
  /\ (forall (before after : string) (labels : bool),
         serialize (String_init (before ++ nl ++ after)) labels 0
         = chr DQUOTE
           ++ String_text before
           ++ (chr BACKSLASH ++ chr BACKSLASH ++ "n")
           ++ String_text after
           ++ chr DQUOTE)
  /\ serialize (String_init nl) false 0
     = chr DQUOTE ++ chr BACKSLASH ++ chr BACKSLASH ++ "n" ++ chr DQUOTE
  /\ serialize (String_init (chr CR)) false 0
     = chr DQUOTE ++ chr BACKSLASH ++ chr BACKSLASH ++ "r" ++ chr DQUOTE
  /\ serialize (String_init nl) false 0
     <> chr DQUOTE ++ re_sub_escape nl ++ chr DQUOTE
  /\ serialize (String_init nl) false 0
     <> chr DQUOTE ++ chr BACKSLASH ++ "n" ++ chr DQUOTE
  /\ serialize (String_init nl) false 0
     = serialize (String_init (chr BACKSLASH ++ "n")) false 0.
Proof.
  split; [|split; [|repeat split; try reflexivity; discriminate]].
  - intros text labels Hlf Hcr.
    rewrite String_serialize_text. unfold String_text, String_init.
    rewrite (replace_absent CR) by assumption.
    now rewrite (replace_absent LF) by assumption.
  - intros before after labels.
    rewrite String_serialize_text, !String_text_app.
    change (String_text nl) with (chr BACKSLASH ++ chr BACKSLASH ++ "n").
    now rewrite <- !append_assoc.
Qed.

(** ** C8 and C10: the List node *)

Lemma split_lines_app_nl (a b : string) :
  split_lines (a ++ String.String LF b) = (split_lines a ++ split_lines b)%list.
Proof.
  induction a as [|c a IH]; [reflexivity|].
  cbn [append split_lines]. rewrite IH.
  destruct (split_lines_cons a) as (line & more & E). rewrite E.
  now destruct (Ascii.eqb c LF).
Qed.

Lemma join_app (sep : string) (xs ys : list string) :
  xs <> [] -> ys <> [] ->
  join sep (xs ++ ys) = join sep xs ++ sep ++ join sep ys.
Proof.
  intros Hx Hy. induction xs as [|x xs IH]; [congruence|].
  destruct xs as [|x' xs].
  - destruct ys; [congruence | reflexivity].
  - change (join sep ((x :: x' :: xs) ++ ys))
      with (x ++ sep ++ join sep ((x' :: xs) ++ ys)).
    rewrite IH by congruence.
    change (join sep (x :: x' :: xs)) with (x ++ sep ++ join sep (x' :: xs)).
    now rewrite <- !append_assoc.
Qed.

Lemma indent_app_nl (a b : string) (amount : Z) :
  _indent (a ++ String.String LF b) amount
  = _indent a amount ++ String.String LF (_indent b amount).
Proof.
  unfold _indent. destruct (amount =? 0); [reflexivity|].
  rewrite split_lines_app_nl, map_app.
  destruct (split_lines_cons a) as (la & ma & Ea).
  destruct (split_lines_cons b) as (lb & mb & Eb).
  rewrite Ea, Eb. cbn [map]. now rewrite join_app by discriminate.
Qed.

Lemma indent_one_line (line : string) (amount : Z) :
  truthy line = true -> contains LF line = false ->
  _indent line amount = spaces amount ++ line.
Proof.
  intros Ht Hc. unfold _indent. destruct (Z.eqb_spec amount 0) as [->|_].
  - reflexivity.
  - rewrite split_lines_plain by assumption. cbn [map join].
    unfold indent_line. now rewrite Ht.
Qed.

Lemma ser_dispatch (obj : pyval) (labels : bool) (indent : Z) :
  ser obj labels indent
  = match dispatch obj with
    | Some e => serialize e labels indent
    | None => str_fallback obj
    end.
Proof. destruct obj as [ | | | | | | |[|]|]; reflexivity. Qed.

(** The fallback of the dispatcher returns the same text at every indent. *)
Example ser_fallback_text (labels : bool) (indent : Z) :
  ser (PyBool true) labels indent = "True" /\ ser PyNone labels indent = "".
Proof. split; reflexivity. Qed.

Lemma serialize_indent (e : Element) (labels : bool) (indent : Z) :
  serialize e labels indent = _indent (serialize e labels 0) indent.
Proof. unfold serialize, serialize_with, indentable, serialize_body. now rewrite indent_zero. Qed.

(** C8 (as amended).  A List node renders, at any indent, as an opening
    bracket on a line of its own at that indent, the elements, and a closing
    bracket on a line of its own at that indent.  Each element goes through
    the dispatcher [ser] with indent 4 and the elements are joined by a
    comma and a line feed before the indent of the list is applied to them.
    An element the dispatcher wraps in a node -- a text, a float, an int, a
    list, a mapping, a tuple, or a node -- appears as that node's own
    rendering moved 4 columns to the right of the list.  An element the
    dispatcher does not wrap -- None, or a value on its [str()] fallback --
    is the same text at every indent, so it is not moved and stands at the
    indent of the list.  The text always holds a line feed, a native list is
    rendered as the List node of its items, and the list of 1, 2, 3 at
    indent 0 is the five-line text of the claim. *)
Theorem List_serialize_multiline (items : list pyval) (labels : bool) (indent : Z) :
  serialize (List items) labels indent
  = spaces indent ++ "[" ++ nl
    ++ _indent (join ("," ++ nl) (map (fun item => ser item labels 4) items)) indent
    ++ nl ++ spaces indent ++ "]"
  /\ (forall item e, dispatch item = Some e ->
        ser item labels 4 = _indent (serialize e labels 0) 4)
  /\ (forall item, dispatch item = None ->
        ser item labels 4 = str_fallback item
        /\ ser item labels 4 = ser item labels 0)
  /\ contains LF (serialize (List items) labels indent) = true
  /\ ser (PyList items) labels indent = serialize (List items) labels indent
  /\ serialize (List [PyInt 1; PyInt 2; PyInt 3]) false 0
     = "[" ++ nl ++ "    1," ++ nl ++ "    2," ++ nl ++ "    3" ++ nl ++ "]".
Proof.
  assert (E : serialize (List items) labels indent
              = spaces indent ++ "[" ++ nl
                ++ _indent (join ("," ++ nl)
                                 (map (fun item => ser item labels 4) items)) indent
                ++ nl ++ spaces indent ++ "]").
  { unfold serialize, serialize_with, indentable, serialize_body, List_serialize.
    set (body := join ("," ++ nl) (map (fun item => ser item labels 4) items)).
    change ("[" ++ nl ++ body ++ nl ++ "]")
      with ("[" ++ String.String LF (body ++ String.String LF "]")).
    rewrite !indent_app_nl.
    rewrite (indent_one_line "["), (indent_one_line "]") by reflexivity.
    rewrite <- append_assoc. reflexivity. }
  split; [exact E|]. split; [|split; [|split; [|split]]].
  - intros item e H. rewrite ser_dispatch, H. apply serialize_indent.
  - intros item H. rewrite !ser_dispatch, H. split; reflexivity.
  - rewrite E, !contains_app. cbn [nl chr contains].
    rewrite Ascii.eqb_refl. cbn [orb]. now rewrite !orb_true_r.
  - reflexivity.
  - reflexivity.
Qed.

(** C8, the input on which the claim as stated fails: a native boolean in a
    List takes the [str()] fallback of the dispatcher, which returns its
    text without any indent; in a list at indent 2 it stands at column 2,
    under the bracket, and not at column 6. *)
Lemma List_fallback_element_not_indented :
  ser (PyBool true) false 4 = "True"
  /\ serialize (List [PyBool true]) false 2
     = "  [" ++ nl ++ "  True" ++ nl ++ "  ]"
  /\ serialize (List [PyBool true]) false 2
     <> "  [" ++ nl ++ "      True" ++ nl ++ "  ]".
Proof. split; [reflexivity|]. split; [reflexivity | discriminate]. Qed.

(** C10, first half as a lemma of its own: the empty list. *)
Lemma List_serialize_empty (labels : bool) :
  serialize (List []) labels 0 = "[" ++ nl ++ nl ++ "]".
Proof. reflexivity. Qed.

(** ** Mappings *)

Lemma dict_get_set {A : Type} (d : list (string * A)) (k k' : string) (v : A) :
  dict_get (dict_set d k v) k' = if String.eqb k k' then Some v else dict_get d k'.
Proof.
  induction d as [|[x w] d IH]; cbn [dict_set dict_get].
  - reflexivity.
  - destruct (String.eqb_spec x k) as [->|Hx]; cbn [dict_get].
    + now destruct (String.eqb k k').
    + rewrite IH. destruct (String.eqb_spec x k') as [->|Hx'].
      * destruct (String.eqb_spec k k'); congruence.
      * reflexivity.
Qed.

Lemma int_dict_get_set {A : Type} (d : list (Z * A)) (k k' : Z) (v : A) :
  int_dict_get (int_dict_set d k v) k' = if Z.eqb k k' then Some v else int_dict_get d k'.
Proof.
  induction d as [|[x w] d IH]; cbn [int_dict_set int_dict_get].
  - reflexivity.
  - destruct (Z.eqb_spec x k) as [->|Hx]; cbn [int_dict_get].
    + now destruct (Z.eqb k k').
    + rewrite IH. destruct (Z.eqb_spec x k') as [->|Hx'].
      * destruct (Z.eqb_spec k k'); congruence.
      * reflexivity.
Qed.

Lemma dict_get_In {A : Type} (d : list (string * A)) (k : string) :
  In k (dict_keys d) <-> dict_get d k <> None.
Proof.
  induction d as [|[x w] d IH]; cbn [dict_keys map In dict_get fst].
  - tauto.
  - destruct (String.eqb_spec x k) as [->|Hx].
    + split; [discriminate | auto].
    + fold (dict_keys d). rewrite <- IH. tauto.
Qed.

Lemma dict_get_Some_In {A : Type} (d : list (string * A)) (k : string) (v : A) :
  dict_get d k = Some v -> In (k, v) d.
Proof.
  induction d as [|[x w] d IH]; cbn [dict_get]; [discriminate|].
  destruct (String.eqb_spec x k) as [->|Hx].
  - intros [= ->]. now left.
  - intros H. right. now apply IH.
Qed.

Lemma dict_get_NoDup {A : Type} (d : list (string * A)) (k : string) (v : A) :
  NoDup (dict_keys d) -> In (k, v) d -> dict_get d k = Some v.
Proof.
  induction d as [|[x w] d IH]; cbn [dict_keys map fst dict_get In]; [tauto|].
  fold (dict_keys d). intros Hn [E|Hi].
  - injection E as -> ->. now rewrite String.eqb_refl.
  - inversion Hn as [|? ? Hx Hn']; subst.
    destruct (String.eqb_spec x k) as [->|_]; [|now apply IH].
    exfalso. apply Hx. unfold dict_keys. now apply (in_map fst d (k, v)).
Qed.

Lemma dict_get_existsb {A : Type} (d : list (string * A)) (k : string) (v : A) :
  dict_get d k = Some v -> existsb (String.eqb k) (dict_keys d) = true.
Proof.
  intros H. apply existsb_exists. exists k. split.
  - apply dict_get_In. congruence.
  - apply String.eqb_refl.
Qed.

Lemma dict_keys_set {A : Type} (d : list (string * A)) (k x : string) (v : A) :
  In x (dict_keys (dict_set d k v)) <-> x = k \/ In x (dict_keys d).
Proof.
  rewrite !dict_get_In, dict_get_set.
  destruct (String.eqb_spec k x) as [->|H]; split; intros; try tauto; try discriminate.
  destruct H0; congruence.
Qed.

Lemma bucket_of_set (attributes : list (string * bucket)) (k k' : string) (b : bucket) :
  bucket_of (dict_set attributes k b) k'
  = if String.eqb k k' then b else bucket_of attributes k'.
Proof. unfold bucket_of. rewrite dict_get_set. now destruct (String.eqb k k'). Qed.

Lemma node_value_set_nodeValue attributes n i v n' j :
  node_value (set_nodeValue attributes n i v) n' j
  = if String.eqb n n' && Z.eqb i j then Some v else node_value attributes n' j.
Proof.
  unfold node_value, set_nodeValue. rewrite bucket_of_set.
  destruct (String.eqb_spec n n') as [->|_]; cbn [andb nodeValues]; [|reflexivity].
  apply int_dict_get_set.
Qed.

Lemma link_value_set_linkValue attributes n i v n' j :
  link_value (set_linkValue attributes n i v) n' j
  = if String.eqb n n' && Z.eqb i j then Some v else link_value attributes n' j.
Proof.
  unfold link_value, set_linkValue. rewrite bucket_of_set.
  destruct (String.eqb_spec n n') as [->|_]; cbn [andb linkValues]; [|reflexivity].
  apply int_dict_get_set.
Qed.

Lemma node_value_set_linkValue attributes n i v n' j :
  node_value (set_linkValue attributes n i v) n' j = node_value attributes n' j.
Proof.
  unfold node_value, set_linkValue. rewrite bucket_of_set.
  now destruct (String.eqb_spec n n') as [->|_].
Qed.

Lemma link_value_set_nodeValue attributes n i v n' j :
  link_value (set_nodeValue attributes n i v) n' j = link_value attributes n' j.
Proof.
  unfold link_value, set_nodeValue. rewrite bucket_of_set.
  now destruct (String.eqb_spec n n') as [->|_].
Qed.

(** ** The attribute loops *)

Section AttrLoop.
Variable set : list (string * bucket) -> string -> Z -> pyval -> list (string * bucket).
Variable get other : list (string * bucket) -> string -> Z -> option pyval.

Hypothesis get_set : forall attributes n i v n' j,
    get (set attributes n i v) n' j
    = if String.eqb n n' && Z.eqb i j then Some v else get attributes n' j.
Hypothesis other_set : forall attributes n i v n' j,
    other (set attributes n i v) n' j = other attributes n' j.
Hypothesis keys_set : forall attributes n i v x,
    In x (dict_keys (set attributes n i v)) <-> x = n \/ In x (dict_keys attributes).

Lemma attr_loop_total attr todo i attributes :
  incl todo (dict_keys attr) ->
  exists attributes', attr_loop set attr todo i attributes = Ok attributes'.
Proof.
  revert attributes. induction todo as [|x rest IH]; intros attributes Hin.
  - now eexists.
  - cbn [attr_loop]. assert (Hx : In x (dict_keys attr)) by (apply Hin; now left).
    apply dict_get_In in Hx. destruct (dict_get attr x) as [value|]; [|congruence].
    apply IH. intros y Hy. apply Hin. now right.
Qed.

Lemma attr_loop_get attr todo i attributes attributes' :
  attr_loop set attr todo i attributes = Ok attributes' ->
  forall n j,
    get attributes' n j
    = if Z.eqb i j && existsb (String.eqb n) todo
      then option_map convert (dict_get attr n)
      else get attributes n j.
Proof.
  revert attributes. induction todo as [|x rest IH]; intros attributes H n j.
  - injection H as <-. now rewrite andb_false_r.
  - cbn [attr_loop] in H. destruct (dict_get attr x) as [value|] eqn:Hx; [|discriminate].
    rewrite (IH _ H), get_set. cbn [existsb].
    destruct (Z.eqb i j); cbn [andb]; [|now rewrite andb_false_r].
    destruct (existsb (String.eqb n) rest); [now rewrite orb_true_r|].
    rewrite orb_false_r, andb_true_r, (String.eqb_sym n x).
    destruct (String.eqb_spec x n) as [->|_]; [|reflexivity].
    now rewrite Hx.
Qed.

Lemma attr_loop_other attr todo i attributes attributes' :
  attr_loop set attr todo i attributes = Ok attributes' ->
  forall n j, other attributes' n j = other attributes n j.
Proof.
  revert attributes. induction todo as [|x rest IH]; intros attributes H n j.
  - now injection H as <-.
  - cbn [attr_loop] in H. destruct (dict_get attr x) as [value|]; [|discriminate].
    now rewrite (IH _ H), other_set.
Qed.

Lemma attr_loop_keys attr todo i attributes attributes' :
  attr_loop set attr todo i attributes = Ok attributes' ->
  forall x, In x (dict_keys attributes') <-> In x todo \/ In x (dict_keys attributes).
Proof.
  revert attributes. induction todo as [|y rest IH]; intros attributes H x.
  - injection H as <-. cbn [In]. tauto.
  - cbn [attr_loop] in H. destruct (dict_get attr y) as [value|]; [|discriminate].
    rewrite (IH _ H), keys_set. cbn [In]. intuition congruence.
Qed.
End AttrLoop.

Lemma keys_set_nodeValue attributes n i v x :
  In x (dict_keys (set_nodeValue attributes n i v)) <-> x = n \/ In x (dict_keys attributes).
Proof. apply dict_keys_set. Qed.

Lemma keys_set_linkValue attributes n i v x :
  In x (dict_keys (set_linkValue attributes n i v)) <-> x = n \/ In x (dict_keys attributes).
Proof. apply dict_keys_set. Qed.

Lemma node_loop_total todo i node_order attributes :
  exists attributes',
    node_loop todo i node_order attributes
    = Ok (number (map node_name todo) i node_order, attributes').
Proof.
  revert i node_order attributes.
  induction todo as [|node rest IH]; intros i node_order attributes.
  - now eexists.
  - cbn [node_loop map number].
    destruct (attr_loop_total set_nodeValue (node_attr node)
                (dict_keys (node_attr node)) i attributes (incl_refl _)) as [a1 E].
    rewrite E. cbn [bind]. apply IH.
Qed.

Lemma node_loop_values todo :
  forall i node_order attributes node_order' attributes',
    node_loop todo i node_order attributes = Ok (node_order', attributes') ->
    (forall k node n v,
        nth_error todo k = Some node -> dict_get (node_attr node) n = Some v ->
        node_value attributes' n (i + Z.of_nat k) = Some (convert v))
    /\ (forall n j, j < i -> node_value attributes' n j = node_value attributes n j)
    /\ (forall n j, link_value attributes' n j = link_value attributes n j)
    /\ (forall x, In x (dict_keys attributes')
                  <-> In x (dict_keys attributes)
                      \/ exists node, In node todo /\ In x (dict_keys (node_attr node))).
Proof.
  induction todo as [|node rest IH]; intros i node_order attributes node_order' attributes' H.
  - injection H as <- <-. repeat split; try tauto.
    + intros [|k] ? ? ? ?; discriminate.
    + intros [?|(? & [] & _)]. assumption.
  - cbn [node_loop] in H.
    destruct (attr_loop set_nodeValue (node_attr node) (dict_keys (node_attr node))
                        i attributes) as [a1|] eqn:E; [|discriminate].
    cbn [bind] in H. destruct (IH _ _ _ _ _ H) as (V & P & L & K).
    pose proof (attr_loop_get _ _ node_value_set_nodeValue _ _ _ _ _ E) as G.
    pose proof (attr_loop_other _ _ link_value_set_nodeValue _ _ _ _ _ E) as O.
    pose proof (attr_loop_keys _ keys_set_nodeValue _ _ _ _ _ E) as Ks.
    repeat split.
    + intros [|k] nd n v Hk Hv.
      * injection Hk as <-. rewrite Z.add_0_r, P by lia.
        rewrite G, Z.eqb_refl, (dict_get_existsb _ _ _ Hv), Hv. reflexivity.
      * replace (i + Z.of_nat (S k)) with (i + 1 + Z.of_nat k) by lia.
        now apply (V k nd).
    + intros n j Hj. rewrite P by lia. rewrite G.
      destruct (Z.eqb_spec i j); [lia | reflexivity].
    + intros n j. now rewrite L, O.
    + rewrite K, Ks. intros [[?|?]|(nd & ? & ?)]; eauto.
      * right. exists node. split; [now left | assumption].
      * right. exists nd. split; [now right | assumption].
    + rewrite K, Ks. intros [?|(nd & [<-|?] & ?)]; eauto.
Qed.

Lemma edge_loop_values todo :
  forall i node_order links attributes links' attributes',
    edge_loop todo i node_order links attributes = Ok (links', attributes') ->
    (forall k edge n v,
        nth_error todo k = Some edge -> dict_get (edge_attr edge) n = Some v ->
        link_value attributes' n (i + Z.of_nat k) = Some (convert v))
    /\ (forall n j, j < i -> link_value attributes' n j = link_value attributes n j)
    /\ (forall n j, node_value attributes' n j = node_value attributes n j)
    /\ (forall x, In x (dict_keys attributes')
                  <-> In x (dict_keys attributes)
                      \/ exists edge, In edge todo /\ In x (dict_keys (edge_attr edge)))
    /\ exists new,
        links' = (links ++ new)%list
        /\ Forall2 (fun edge l =>
                      dict_get node_order (edge_0 edge) = Some (source l)
                      /\ dict_get node_order (edge_1 edge) = Some (destination l))
                   todo new.
Proof.
  induction todo as [|edge rest IH];
    intros i node_order links attributes links' attributes' H.
  - injection H as <- <-. repeat split; try tauto.
    + intros [|k] ? ? ? ?; discriminate.
    + intros [?|(? & [] & _)]. assumption.
    + exists []. split; [now rewrite app_nil_r | constructor].
  - cbn [edge_loop] in H. unfold node_id in H.
    destruct (dict_get node_order (edge_0 edge)) as [id1|] eqn:E0; [|discriminate].
    destruct (dict_get node_order (edge_1 edge)) as [id2|] eqn:E1; [|discriminate].
    cbn [bind] in H.
    destruct (attr_loop set_linkValue (edge_attr edge) (dict_keys (edge_attr edge))
                        i attributes) as [a1|] eqn:E; [|discriminate].
    cbn [bind] in H. destruct (IH _ _ _ _ _ _ H) as (V & P & L & K & new & -> & F).
    pose proof (attr_loop_get _ _ link_value_set_linkValue _ _ _ _ _ E) as G.
    pose proof (attr_loop_other _ _ node_value_set_linkValue _ _ _ _ _ E) as O.
    pose proof (attr_loop_keys _ keys_set_linkValue _ _ _ _ _ E) as Ks.
    repeat split.
    + intros [|k] ed n v Hk Hv.
      * injection Hk as <-. rewrite Z.add_0_r, P by lia.
        rewrite G, Z.eqb_refl, (dict_get_existsb _ _ _ Hv), Hv. reflexivity.
      * replace (i + Z.of_nat (S k)) with (i + 1 + Z.of_nat k) by lia.
        now apply (V k ed).
    + intros n j Hj. rewrite P by lia. rewrite G.
      destruct (Z.eqb_spec i j); [lia | reflexivity].
    + intros n j. now rewrite L, O.
    + rewrite K, Ks. intros [[?|?]|(ed & ? & ?)]; eauto.
      * right. exists edge. split; [now left | assumption].
      * right. exists ed. split; [now right | assumption].
    + rewrite K, Ks. intros [?|(ed & [<-|?] & ?)]; eauto.
    + exists ({| source := id1; destination := id2 |} :: new). split.
      * now rewrite <- app_assoc.
      * constructor; [split; assumption | assumption].
Qed.

Lemma scan_inv graph node_order links attributes :
  scan graph = Ok (node_order, links, attributes) ->
  exists a1,
    node_loop (graph_nodes graph) 0 [] [] = Ok (node_order, a1)
    /\ node_order = number (handles graph) 0 []
    /\ len node_order = len (graph_nodes graph)
    /\ edge_loop (graph_edges graph) 0 node_order [] a1 = Ok (links, attributes).
Proof.
  unfold scan. intros H.
  destruct (node_loop_total (graph_nodes graph) 0 [] []) as [a1 E].
  rewrite E in H. cbn [bind] in H. fold (handles graph) in *.
  destruct (Z.eqb_spec (len (number (handles graph) 0 [])) (len (graph_nodes graph)))
    as [Hl|Hl]; cbn [negb] in H; [|discriminate].
  destruct (edge_loop (graph_edges graph) 0 (number (handles graph) 0 []) [] a1)
    as [[l a]|] eqn:E'; [|discriminate].
  cbn [bind] in H. injection H as <- <- <-. now exists a1.
Qed.

(** ** C2: True and False attribute values *)

(** C2.  Once both scanning loops of the assembly have run, the nodeValues
    bucket of an attribute name holds, at the position of each node that has
    the attribute, the looked-up text put through [convert], and the
    linkValues bucket holds the same at the position of each edge that has
    it.  [convert] turns the text True into a node that renders as T -- the
    same text as the Bool node of true -- and the text False into one that
    renders as F, and leaves every other text as it is. *)
Theorem attribute_values_converted
        (graph : AGraph) (node_order : list (string * Z)) (links : list Link)
        (attributes : list (string * bucket)) :
  scan graph = Ok (node_order, links, attributes) ->
  (forall i node attribute_name value,
      nth_error (graph_nodes graph) i = Some node ->
      dict_get (node_attr node) attribute_name = Some value ->
      node_value attributes attribute_name (Z.of_nat i) = Some (convert value))
  /\ (forall i edge attribute_name value,
         nth_error (graph_edges graph) i = Some edge ->
         dict_get (edge_attr edge) attribute_name = Some value ->
         link_value attributes attribute_name (Z.of_nat i) = Some (convert value))
  /\ (forall labels,
         ser (convert "True") labels 0 = "T"
         /\ ser (convert "True") labels 0 = serialize (Bool true) labels 0
         /\ ser (convert "False") labels 0 = "F"
         /\ ser (convert "False") labels 0 = serialize (Bool false) labels 0)
  /\ (forall value, value <> "True" -> value <> "False" -> convert value = PyStr value).
Proof.
  intros H. destruct (scan_inv _ _ _ _ H) as (a1 & Hn & _ & _ & He).
  destruct (node_loop_values _ _ _ _ _ _ Hn) as (Vn & _ & _ & _).
  destruct (edge_loop_values _ _ _ _ _ _ _ He) as (Ve & _ & Pn & _ & _).
  split; [|split; [|split]].
  - intros i node n v Hi Hv. rewrite Pn. now apply (Vn i node).
  - intros i edge n v Hi Hv. now apply (Ve i edge).
  - intros labels. repeat split.
  - intros value H1 H2. unfold convert.
    destruct (String.eqb_spec value "True"); [contradiction|].
    destruct (String.eqb_spec value "False"); [contradiction|]. reflexivity.
Qed.

Lemma attribute_values_converted_witness :
  exists node_order links attributes,
    scan example_graph = Ok (node_order, links, attributes)
    /\ node_value attributes "root" 0 = Some (PyObj (Value "T"))
    /\ node_value attributes "root" 1 = Some (PyObj (Value "F"))
    /\ node_value attributes "color" 0 = Some (PyStr "red")
    /\ link_value attributes "tree_link" 1 = Some (PyObj (Value "F")).
Proof.
  do 3 eexists. split; [reflexivity|].
  destruct (attribute_values_converted example_graph _ _ _ eq_refl)
    as (Hn & He & _ & _).
  split; [|split; [|split]].
  - exact (Hn 0%nat _ "root" "True" eq_refl eq_refl).
  - exact (Hn 1%nat _ "root" "False" eq_refl eq_refl).
  - exact (Hn 0%nat _ "color" "red" eq_refl eq_refl).
  - exact (He 1%nat _ "tree_link" "False" eq_refl eq_refl).
Defined.

(** ** Node numbering *)

Lemma dict_set_keys {A : Type} (d : list (string * A)) (k : string) (v : A) :
  dict_keys (dict_set d k v)
  = if existsb (String.eqb k) (dict_keys d) then dict_keys d
    else (dict_keys d ++ [k])%list.
Proof.
  induction d as [|[x w] d IH]; cbn [dict_set dict_keys map fst existsb app].
  - reflexivity.
  - fold (dict_keys d). rewrite (String.eqb_sym k x).
    destruct (String.eqb x k); cbn [dict_keys map fst orb]; [reflexivity|].
    fold (dict_keys (dict_set d k v)). rewrite IH.
    now destruct (existsb (String.eqb k) (dict_keys d)).
Qed.

Lemma existsb_eqb_In (k : string) (l : list string) :
  existsb (String.eqb k) l = true <-> In k l.
Proof.
  rewrite existsb_exists. split.
  - intros (x & Hx & E). apply String.eqb_eq in E. now subst.
  - intros H. exists k. split; [assumption | apply String.eqb_refl].
Qed.

Lemma dict_set_fresh {A : Type} (d : list (string * A)) (k : string) (v : A) :
  ~ In k (dict_keys d) -> dict_set d k v = (d ++ [(k, v)])%list.
Proof.
  induction d as [|[x w] d IH]; cbn [dict_set dict_keys map fst In app]; intros H.
  - reflexivity.
  - destruct (String.eqb_spec x k) as [->|_]; [tauto|].
    rewrite IH; [reflexivity | tauto].
Qed.

Lemma dict_set_NoDup {A : Type} (d : list (string * A)) (k : string) (v : A) :
  NoDup (dict_keys d) -> NoDup (dict_keys (dict_set d k v)).
Proof.
  intros H. rewrite dict_set_keys.
  destruct (existsb (String.eqb k) (dict_keys d)) eqn:E; [assumption|].
  apply NoDup_app; repeat split; try assumption.
  - constructor; [intros [] | constructor].
  - intros x Hx [<-|[]]. apply existsb_eqb_In in Hx. congruence.
Qed.

Lemma number_keys (hs : list string) :
  forall i node_order x,
    In x (dict_keys (number hs i node_order)) <-> In x (dict_keys node_order) \/ In x hs.
Proof.
  induction hs as [|h hs IH]; intros i node_order x; cbn [number In].
  - tauto.
  - rewrite IH, dict_keys_set. intuition congruence.
Qed.

Lemma number_NoDup (hs : list string) :
  forall i node_order,
    NoDup (dict_keys node_order) -> NoDup (dict_keys (number hs i node_order)).
Proof.
  induction hs as [|h hs IH]; intros i node_order H; cbn [number].
  - assumption.
  - apply IH. now apply dict_set_NoDup.
Qed.

Lemma dict_keys_app {A : Type} (d1 d2 : list (string * A)) :
  dict_keys (d1 ++ d2) = (dict_keys d1 ++ dict_keys d2)%list.
Proof. apply map_app. Qed.

Lemma number_fresh (hs : list string) :
  forall i node_order,
    NoDup hs -> (forall x, In x hs -> ~ In x (dict_keys node_order)) ->
    number hs i node_order = (node_order ++ enumerate_from i hs)%list.
Proof.
  induction hs as [|h hs IH]; intros i node_order Hnd Hfresh; cbn [number enumerate_from].
  - now rewrite app_nil_r.
  - inversion Hnd as [|? ? Hh Hhs]; subst.
    rewrite dict_set_fresh by (apply Hfresh; now left).
    rewrite IH.
    + now rewrite <- app_assoc.
    + assumption.
    + intros x Hx. rewrite dict_keys_app. cbn. intros Hin.
      apply in_app_or in Hin as [Hin|[<-|[]]].
      * apply (Hfresh x); [now right | assumption].
      * contradiction.
Qed.

Lemma enumerate_from_keys (hs : list string) (i : Z) :
  dict_keys (enumerate_from i hs) = hs.
Proof.
  revert i. induction hs as [|h hs IH]; intros i; cbn; [reflexivity|].
  f_equal. apply IH.
Qed.

Lemma enumerate_from_length (hs : list string) (i : Z) :
  length (enumerate_from i hs) = length hs.
Proof. now rewrite <- (enumerate_from_keys hs i) at 2; unfold dict_keys; rewrite length_map. Qed.

Lemma enumerate_from_get (hs : list string) :
  forall i k h,
    NoDup hs -> nth_error hs k = Some h ->
    dict_get (enumerate_from i hs) h = Some (i + Z.of_nat k).
Proof.
  induction hs as [|x hs IH]; intros i k h Hnd Hk.
  - destruct k; discriminate.
  - inversion Hnd as [|? ? Hx Hhs]; subst. cbn [enumerate_from dict_get].
    destruct k as [|k].
    + injection Hk as ->. rewrite String.eqb_refl. f_equal. lia.
    + cbn in Hk. destruct (String.eqb_spec x h) as [->|_].
      * exfalso. apply Hx. eapply nth_error_In; eassumption.
      * rewrite (IH (i + 1) k h) by assumption. f_equal. lia.
Qed.

Lemma enumerate_from_range (hs : list string) :
  forall i h k,
    dict_get (enumerate_from i hs) h = Some k -> i <= k < i + len hs.
Proof.
  unfold len.
  induction hs as [|x hs IH]; intros i h k H; [discriminate|].
  cbn [enumerate_from dict_get] in H. cbn [length].
  destruct (String.eqb x h).
  - injection H as <-. lia.
  - apply IH in H. lia.
Qed.

Lemma number_length (hs : list string) :
  len (number hs 0 []) = len hs <-> NoDup hs.
Proof.
  unfold len. split.
  - intros H. apply NoDup_incl_NoDup with (l := dict_keys (number hs 0 [])).
    + apply number_NoDup. constructor.
    + unfold dict_keys. rewrite length_map. lia.
    + intros x Hx. apply number_keys in Hx as [[]|Hx]. assumption.
  - intros H. rewrite number_fresh by (assumption || (intros ? ? [])).
    cbn [app]. now rewrite enumerate_from_length.
Qed.

(** ** Attribute definitions and the qualifier *)

Lemma definition_loop_spec (attributes : list (string * bucket)) (todo : list string) :
  forall i defs order,
    fst (definition_loop attributes todo i defs order)
    = (defs ++ map (fun n => definition_of n (bucket_of attributes n)) todo)%list
    /\ (forall n, dict_get (snd (definition_loop attributes todo i defs order)) n = None
                  <-> dict_get order n = None /\ ~ In n todo)
    /\ (forall n k, dict_get (snd (definition_loop attributes todo i defs order)) n = Some k ->
                    dict_get order n = Some k
                    \/ exists j, k = i + Z.of_nat j /\ nth_error todo j = Some n).
Proof.
  induction todo as [|x rest IH]; intros i defs order; cbn [definition_loop].
  - cbn [fst snd map In]. rewrite app_nil_r. repeat split; try tauto; auto.
  - destruct (IH (i + 1) (defs ++ [definition_of x (bucket_of attributes x)])%list
                 (dict_set order x i)) as (F & N & Hs).
    split; [|split].
    + rewrite F, <- app_assoc. reflexivity.
    + intros n. rewrite N, dict_get_set. cbn [In].
      destruct (String.eqb_spec x n) as [->|Hx]; split;
        intros [H1 H2]; try discriminate; tauto.
    + intros n k H. apply Hs in H as [H|(j & -> & Hj)].
      * rewrite dict_get_set in H. destruct (String.eqb_spec x n) as [->|Hx].
        -- injection H as <-. right. exists 0%nat. split; [lia | reflexivity].
        -- now left.
      * right. exists (S j). split; [lia | assumption].
Qed.

Lemma nth_error_replace {A : Type} (l : list A) :
  forall j x j',
    (j < length l)%nat ->
    nth_error (firstn j l ++ x :: skipn (S j) l) j'
    = if Nat.eqb j' j then Some x else nth_error l j'.
Proof.
  induction l as [|a l IH]; intros j x j' Hj; [cbn in Hj; lia|].
  destruct j as [|j].
  - destruct j'; reflexivity.
  - cbn [firstn skipn app]. destruct j' as [|j']; [reflexivity|].
    cbn [nth_error Nat.eqb]. apply IH. cbn in Hj. lia.
Qed.

Lemma set_type_at (defs : list (list (string * pyval))) (j : nat)
      (attr : list (string * pyval)) (v : pyval) :
  nth_error defs j = Some attr ->
  exists defs',
    set_type defs (Z.of_nat j) v = Ok defs'
    /\ nth_error defs' j = Some (dict_set attr "type" v)
    /\ forall j', j' <> j -> nth_error defs' j' = nth_error defs j'.
Proof.
  intros H. assert (Hj : (j < length defs)%nat) by (apply nth_error_Some; congruence).
  assert (E1 : (Z.of_nat j <? 0) = false) by (apply Z.ltb_ge; lia).
  assert (E2 : (len defs <=? Z.of_nat j) = false) by (apply Z.leb_gt; unfold len; lia).
  unfold set_type. cbv zeta. rewrite !E1, E2. cbn [orb].
  rewrite Nat2Z.id, H. eexists. split; [reflexivity|].
  cbn [app]. split.
  - now rewrite nth_error_replace, Nat.eqb_refl.
  - intros j' Hne. rewrite nth_error_replace by assumption.
    destruct (Nat.eqb_spec j' j); [contradiction | reflexivity].
Qed.

(** The result of [materialize], by cases on the attribute names that the
    scan has found. *)
Lemma materialize_cases (LibSea : Graph) (node_order : list (string * Z))
      (links0 : list Link) (found : list (string * bucket)) :
  Graph_attributes LibSea = [] -> attribute_order LibSea = [] ->
  match materialize LibSea node_order links0 found with
  | Raise e =>
      (e = KeyError "root" /\ ~ In "root" (dict_keys found))
      \/ (e = KeyError "tree_link" /\ In "root" (dict_keys found)
          /\ ~ In "tree_link" (dict_keys found))
  | Ok doc =>
      In "root" (dict_keys found) /\ In "tree_link" (dict_keys found)
      /\ name doc = name LibSea /\ description doc = description LibSea
      /\ nodes doc = node_order /\ links doc = links0
      /\ paths doc = paths LibSea /\ enums doc = enums LibSea
      /\ exists r t dr dt,
          dict_get (attribute_order doc) "root" = Some (Z.of_nat r)
          /\ dict_get (attribute_order doc) "tree_link" = Some (Z.of_nat t)
          /\ nth_error (attributes doc) r = Some dr
          /\ nth_error (attributes doc) t = Some dt
          /\ dict_get dr "name" = Some (PyObj (Identifier "root"))
          /\ dict_get dr "type" = Some (PyObj (Value "bool"))
          /\ dict_get dt "name" = Some (PyObj (Identifier "tree_link"))
          /\ dict_get dt "type" = Some (PyObj (Value "bool"))
          /\ qualifiers doc
             = (qualifiers LibSea ++ [spanning_tree (Z.of_nat r) (Z.of_nat t)])%list
  end.
Proof.
  intros Ha Ho. unfold materialize. rewrite Ha, Ho.
  destruct (definition_loop_spec found (dict_keys found) 0 [] []) as (F & N & Hs).
  destruct (definition_loop found (dict_keys found) 0 [] []) as [defs order].
  cbn [fst snd app] in F, N, Hs. unfold attribute_index.
  destruct (dict_get order "root") as [r|] eqn:Er; cbn [bind].
  2:{ left. split; [reflexivity|]. now apply N in Er. }
  destruct (Hs _ _ Er) as [?|(jr & -> & Hr)]; [discriminate|].
  rewrite Z.add_0_l in *.
  assert (Dr : nth_error defs jr
               = Some (definition_of "root" (bucket_of found "root")))
    by (rewrite F;
        exact (map_nth_error (fun n => definition_of n (bucket_of found n)) _ _ Hr)).
  destruct (set_type_at _ _ _ (PyObj (Value "bool")) Dr) as (defs1 & E1 & A1 & O1).
  rewrite E1. cbn [bind].
  destruct (dict_get order "tree_link") as [t|] eqn:Et; cbn [bind].
  2:{ right. split; [reflexivity|]. split.
      - eapply nth_error_In; eassumption.
      - now apply N in Et. }
  destruct (Hs _ _ Et) as [?|(jt & -> & Ht)]; [discriminate|].
  rewrite Z.add_0_l in *.
  assert (Hne : jt <> jr) by (intros ->; congruence).
  assert (Dt : nth_error defs1 jt
               = Some (definition_of "tree_link" (bucket_of found "tree_link")))
    by (rewrite O1 by assumption; rewrite F;
        exact (map_nth_error (fun n => definition_of n (bucket_of found n)) _ _ Ht)).
  destruct (set_type_at _ _ _ (PyObj (Value "bool")) Dt) as (defs2 & E2 & A2 & O2).
  rewrite E2. cbn [bind].
  split; [eapply nth_error_In; eassumption|].
  split; [eapply nth_error_In; eassumption|].
  cbn [name description nodes links paths enums attributes attribute_order qualifiers].
  repeat (split; [reflexivity|]).
  exists jr, jt. do 2 eexists.
  split; [exact Er|]. split; [exact Et|].
  split; [rewrite O2 by congruence; exact A1|]. split; [exact A2|].
  repeat split.
Qed.

Lemma from_graph_after_scan (graph : AGraph) node_order links0 found :
  scan graph = Ok (node_order, links0, found) ->
  exists LibSea,
    from_graph graph = materialize LibSea node_order links0 found
    /\ Graph_attributes LibSea = [] /\ attribute_order LibSea = []
    /\ qualifiers LibSea = [] /\ paths LibSea = []
    /\ description LibSea
       = Some (PyStr (get_default (graph_attr graph) "description"
                                  "Generated by libsea.py")).
Proof.
  intros H. unfold from_graph. rewrite H. cbn [bind].
  eexists. split; [reflexivity|]. repeat split.
Qed.

Lemma from_graph_inv (graph : AGraph) (doc : Graph) :
  from_graph graph = Ok doc ->
  exists node_order links0 found, scan graph = Ok (node_order, links0, found).
Proof.
  unfold from_graph. destruct (scan graph) as [[[o l] f]|e]; [eauto | discriminate].
Qed.

Lemma scan_keys (graph : AGraph) node_order links0 found :
  scan graph = Ok (node_order, links0, found) ->
  forall x, In x (dict_keys found) <-> discovered graph x.
Proof.
  intros H x. destruct (scan_inv _ _ _ _ H) as (a1 & Hn & _ & _ & He).
  destruct (node_loop_values _ _ _ _ _ _ Hn) as (_ & _ & _ & Kn).
  destruct (edge_loop_values _ _ _ _ _ _ _ He) as (_ & _ & _ & Ke & _).
  rewrite Ke, Kn. unfold discovered. cbn [dict_keys map In]. tauto.
Qed.

Lemma edge_loop_total todo :
  forall i node_order links0 attributes,
    (forall edge, In edge todo ->
                  In (edge_0 edge) (dict_keys node_order)
                  /\ In (edge_1 edge) (dict_keys node_order)) ->
    exists links' attributes',
      edge_loop todo i node_order links0 attributes = Ok (links', attributes').
Proof.
  induction todo as [|edge rest IH]; intros i node_order links0 attributes H.
  - now do 2 eexists.
  - cbn [edge_loop]. unfold node_id.
    destruct (H edge (or_introl eq_refl)) as [H0 H1].
    apply dict_get_In in H0, H1.
    destruct (dict_get node_order (edge_0 edge)) as [id1|]; [|congruence].
    destruct (dict_get node_order (edge_1 edge)) as [id2|]; [|congruence].
    cbn [bind].
    destruct (attr_loop_total set_linkValue (edge_attr edge)
                (dict_keys (edge_attr edge)) i attributes (incl_refl _)) as [a1 E].
    rewrite E. cbn [bind]. apply IH. intros e He. apply H. now right.
Qed.

Lemma len_handles (graph : AGraph) : len (handles graph) = len (graph_nodes graph).
Proof. unfold len, handles. now rewrite length_map. Qed.

Lemma scan_total (graph : AGraph) :
  NoDup (handles graph) ->
  (forall edge, In edge (graph_edges graph) ->
                In (edge_0 edge) (handles graph) /\ In (edge_1 edge) (handles graph)) ->
  exists links0 found,
    scan graph = Ok (enumerate_from 0 (handles graph), links0, found).
Proof.
  intros Hnd Hedges. unfold scan.
  destruct (node_loop_total (graph_nodes graph) 0 [] []) as [a1 E].
  rewrite E. cbn [bind]. fold (handles graph).
  rewrite number_fresh by (assumption || (intros ? ? [])). cbn [app].
  assert (L : len (enumerate_from 0 (handles graph)) = len (graph_nodes graph))
    by (rewrite <- len_handles; unfold len; now rewrite enumerate_from_length).
  rewrite L, Z.eqb_refl. cbn [negb].
  destruct (edge_loop_total (graph_edges graph) 0 (enumerate_from 0 (handles graph))
                            [] a1) as (l & f & E').
  { now rewrite enumerate_from_keys. }
  rewrite E'. cbn [bind]. now do 2 eexists.
Qed.

Lemma scan_collision (graph : AGraph) :
  len (number (handles graph) 0 []) <> len (graph_nodes graph) ->
  scan graph = Raise (Exception "Node collision").
Proof.
  intros H. unfold scan.
  destruct (node_loop_total (graph_nodes graph) 0 [] []) as [a1 E].
  rewrite E. cbn [bind]. fold (handles graph).
  destruct (Z.eqb_spec (len (number (handles graph) 0 [])) (len (graph_nodes graph)));
    [contradiction | reflexivity].
Qed.

(** What a returned document is made of. *)
Lemma from_graph_Ok (graph : AGraph) (doc : Graph) :
  from_graph graph = Ok doc ->
  exists found,
    scan graph = Ok (nodes doc, links doc, found)
    /\ In "root" (dict_keys found) /\ In "tree_link" (dict_keys found)
    /\ paths doc = []
    /\ description doc
       = Some (PyStr (get_default (graph_attr graph) "description"
                                  "Generated by libsea.py"))
    /\ exists r t dr dt,
        dict_get (attribute_order doc) "root" = Some (Z.of_nat r)
        /\ dict_get (attribute_order doc) "tree_link" = Some (Z.of_nat t)
        /\ nth_error (attributes doc) r = Some dr
        /\ nth_error (attributes doc) t = Some dt
        /\ dict_get dr "name" = Some (PyObj (Identifier "root"))
        /\ dict_get dr "type" = Some (PyObj (Value "bool"))
        /\ dict_get dt "name" = Some (PyObj (Identifier "tree_link"))
        /\ dict_get dt "type" = Some (PyObj (Value "bool"))
        /\ qualifiers doc = [spanning_tree (Z.of_nat r) (Z.of_nat t)].
Proof.
  intros H. destruct (from_graph_inv _ _ H) as (o & l & f & Hs).
  destruct (from_graph_after_scan _ _ _ _ Hs) as (L & E & Ha & Ho & Hq & Hp & Hd).
  pose proof (materialize_cases L o l f Ha Ho) as M.
  rewrite <- E, H in M.
  destruct M as (Hr & Ht & _ & Md & Mn & Ml & Mp & _ & r & t & dr & dt & M).
  rewrite Hq in M. cbn [app] in M.
  exists f. rewrite Mn, Ml, Mp, Md, Hp, Hd. repeat (split; [assumption || reflexivity|]).
  now exists r, t, dr, dt.
Qed.

Lemma from_graph_total (graph : AGraph) node_order links0 found :
  scan graph = Ok (node_order, links0, found) ->
  In "root" (dict_keys found) -> In "tree_link" (dict_keys found) ->
  exists doc, from_graph graph = Ok doc.
Proof.
  intros Hs Hr Ht.
  destruct (from_graph_after_scan _ _ _ _ Hs) as (L & E & Ha & Ho & _).
  pose proof (materialize_cases L node_order links0 found Ha Ho) as M.
  rewrite E. destruct (materialize L node_order links0 found) as [doc|e].
  - now exists doc.
  - destruct M as [(_ & M)|(_ & _ & M)]; contradiction.
Qed.

(** ** C3: the required attribute names *)

(** C3.  A graph on which [root] or [tree_link] is found on no node and no
    edge is never assembled into a document: [from_graph] raises.  When both
    scanning loops have run, the attribute names the assembly holds are
    those found on some node or edge; if [root] is not among them the error
    is the lookup failure that names [root]; if [root] is but [tree_link] is
    not, the one that names [tree_link].  If both are, a document is
    returned in which the definitions at the two recorded indices carry the
    names [root] and [tree_link] with the type tag bool, and the qualifiers
    are exactly one mapping, written out here entry by entry: the type
    [$spanning_tree], the name [$default_spanning_tree], the description
    text, and the list of the two pairs (index of [root], [$root]) and
    (index of [tree_link], [$tree_link]), the indices being the recorded
    ones. *)
Theorem spanning_tree_requires_root_and_tree_link (graph : AGraph) :
  (~ discovered graph "root" \/ ~ discovered graph "tree_link" ->
   exists e, from_graph graph = Raise e)
  /\ forall (node_order : list (string * Z)) (links0 : list Link)
            (found : list (string * bucket)),
      scan graph = Ok (node_order, links0, found) ->
      (forall x, In x (dict_keys found) <-> discovered graph x)
      /\ (~ discovered graph "root" -> from_graph graph = Raise (KeyError "root"))
      /\ (discovered graph "root" -> ~ discovered graph "tree_link" ->
          from_graph graph = Raise (KeyError "tree_link"))
      /\ (discovered graph "root" -> discovered graph "tree_link" ->
          exists doc r t dr dt,
            from_graph graph = Ok doc
            /\ dict_get (attribute_order doc) "root" = Some (Z.of_nat r)
            /\ dict_get (attribute_order doc) "tree_link" = Some (Z.of_nat t)
            /\ nth_error (attributes doc) r = Some dr
            /\ nth_error (attributes doc) t = Some dt
            /\ dict_get dr "name" = Some (PyObj (Identifier "root"))
            /\ dict_get dr "type" = Some (PyObj (Value "bool"))
            /\ dict_get dt "name" = Some (PyObj (Identifier "tree_link"))
            /\ dict_get dt "type" = Some (PyObj (Value "bool"))
            /\ qualifiers doc
               = [PyDict
                    [("type", PyObj (Identifier "spanning_tree"));
                     ("name", PyObj (Identifier "default_spanning_tree"));
                     ("description", PyStr "Spanning tree for walrus");
                     ("attributes",
                      PyList
                        [PyTuple [] [PyInt (Z.of_nat r); PyObj (Identifier "root")];
                         PyTuple [] [PyInt (Z.of_nat t);
                                     PyObj (Identifier "tree_link")]])]]).
Proof.
  assert (Main : forall node_order links0 found,
             scan graph = Ok (node_order, links0, found) ->
             (forall x, In x (dict_keys found) <-> discovered graph x)
             /\ match from_graph graph with
                | Raise e =>
                    (e = KeyError "root" /\ ~ In "root" (dict_keys found))
                    \/ (e = KeyError "tree_link" /\ In "root" (dict_keys found)
                        /\ ~ In "tree_link" (dict_keys found))
                | Ok doc =>
                    In "root" (dict_keys found) /\ In "tree_link" (dict_keys found)
                end).
  { intros node_order links0 found Hs. split; [exact (scan_keys _ _ _ _ Hs)|].
    destruct (from_graph_after_scan _ _ _ _ Hs) as (L & E & Ha & Ho & _).
    pose proof (materialize_cases L node_order links0 found Ha Ho) as M.
    rewrite <- E in M. destruct (from_graph graph); tauto. }
  split.
  - intros Hmiss. destruct (scan graph) as [[[o l] f]|e] eqn:Hs.
    + destruct (Main o l f eq_refl) as [K M].
      destruct (from_graph graph) as [doc|e]; [|now exists e].
      rewrite !K in M. tauto.
    + exists e. unfold from_graph. now rewrite Hs.
  - intros node_order links0 found Hs. destruct (Main _ _ _ Hs) as [K M].
    split; [exact K|]. split; [|split].
    + intros Hr. rewrite <- K in Hr.
      destruct (from_graph graph) as [doc|e]; [tauto|].
      destruct M as [(-> & _)|(_ & ? & _)]; [reflexivity | contradiction].
    + intros Hr Ht. rewrite <- K in Hr, Ht.
      destruct (from_graph graph) as [doc|e]; [tauto|].
      destruct M as [(_ & ?)|(-> & _)]; [contradiction | reflexivity].
    + intros Hr Ht. rewrite <- K in Hr, Ht.
      destruct (from_graph_total _ _ _ _ Hs Hr Ht) as [doc Hd].
      destruct (from_graph_Ok _ _ Hd) as (_ & _ & _ & _ & _ & _ & r & t & dr & dt & P).
      now exists doc, r, t, dr, dt.
Qed.

Lemma spanning_tree_requires_root_and_tree_link_witness :
  (exists doc r t,
      from_graph example_graph = Ok doc
      /\ dict_get (attribute_order doc) "root" = Some (Z.of_nat r)
      /\ dict_get (attribute_order doc) "tree_link" = Some (Z.of_nat t)
      /\ qualifiers doc
         = [PyDict
              [("type", PyObj (Identifier "spanning_tree"));
               ("name", PyObj (Identifier "default_spanning_tree"));
               ("description", PyStr "Spanning tree for walrus");
               ("attributes",
                PyList
                  [PyTuple [] [PyInt (Z.of_nat r); PyObj (Identifier "root")];
                   PyTuple [] [PyInt (Z.of_nat t);
                               PyObj (Identifier "tree_link")]])]])
  /\ from_graph example_no_tree_link = Raise (KeyError "tree_link").
Proof.
  split.
  - destruct (proj2 (spanning_tree_requires_root_and_tree_link example_graph)
                    _ _ _ eq_refl) as (_ & _ & _ & H).
    destruct H as (doc & r & t & dr & dt & H).
    + left. eexists. split; [left; reflexivity | left; reflexivity].
    + right. eexists. split; [left; reflexivity | left; reflexivity].
    + exists doc, r, t. repeat (split; [apply H|]). apply H.
  - destruct (proj2 (spanning_tree_requires_root_and_tree_link example_no_tree_link)
                    _ _ _ eq_refl) as (K & _ & H & _).
    apply H.
    + left. eexists. split; [left; reflexivity | left; reflexivity].
    + rewrite <- K. cbn. intuition discriminate.
Defined.

(** ** C4: node ids and the collision test *)

(** C4.  The node loop always completes and leaves in [node_order] one entry
    per distinct handle met.  If the number of entries differs from the
    number of nodes the graph reports -- which happens exactly when the node
    iterator yields some handle twice -- the assembly raises the node
    collision error and returns no document.  If it does not differ, the
    handles are numbered 0, 1, 2, ... in iteration order, and that numbering
    is the [nodes] table of every returned document. *)
Theorem node_ids_dense_or_collision (graph : AGraph) :
  (exists found,
      node_loop (graph_nodes graph) 0 [] [] = Ok (number (handles graph) 0 [], found))
  /\ NoDup (dict_keys (number (handles graph) 0 []))
  /\ (forall h, In h (dict_keys (number (handles graph) 0 [])) <-> In h (handles graph))
  /\ (len (number (handles graph) 0 []) <> len (graph_nodes graph) ->
      from_graph graph = Raise (Exception "Node collision"))
  /\ (len (number (handles graph) 0 []) <> len (graph_nodes graph)
      <-> ~ NoDup (handles graph))
  /\ (len (number (handles graph) 0 []) = len (graph_nodes graph) ->
      number (handles graph) 0 [] = enumerate_from 0 (handles graph))
  /\ (forall doc, from_graph graph = Ok doc ->
        nodes doc = enumerate_from 0 (handles graph)
        /\ forall i h, nth_error (handles graph) i = Some h ->
                       dict_get (nodes doc) h = Some (Z.of_nat i)).
Proof.
  assert (Eq : len (number (handles graph) 0 []) = len (graph_nodes graph) ->
               NoDup (handles graph)
               /\ number (handles graph) 0 [] = enumerate_from 0 (handles graph)).
  { intros H. rewrite <- len_handles in H. apply number_length in H.
    split; [assumption|]. now rewrite number_fresh by (assumption || (intros ? ? [])). }
  split; [apply node_loop_total|]. split; [apply number_NoDup; constructor|].
  split; [|split; [|split; [|split]]].
  - intros h. rewrite number_keys. cbn [dict_keys map In]. tauto.
  - intros H. unfold from_graph. now rewrite scan_collision.
  - rewrite <- len_handles, number_length. tauto.
  - intros H. now apply Eq.
  - intros doc H. destruct (from_graph_Ok _ _ H) as (f & Hs & _).
    destruct (scan_inv _ _ _ _ Hs) as (_ & _ & Hn & Hl & _).
    rewrite Hn in Hl. destruct (Eq Hl) as [Hnd E]. rewrite Hn, E.
    split; [reflexivity|]. intros i h Hi.
    now rewrite (enumerate_from_get _ 0 i h Hnd Hi).
Qed.

Example node_collision_raised :
  from_graph example_collision = Raise (Exception "Node collision").
Proof. reflexivity. Qed.

(** ** The lines of the rendered document *)

Lemma concat_cons (x : string) (xs : list string) :
  String.concat "" (x :: xs) = x ++ String.concat "" xs.
Proof. destruct xs; cbn [String.concat append]; [now rewrite append_empty_r | reflexivity]. Qed.

Lemma concat_app (xs ys : list string) :
  String.concat "" (xs ++ ys) = String.concat "" xs ++ String.concat "" ys.
Proof.
  induction xs as [|x xs IH]; [reflexivity|].
  change ((x :: xs) ++ ys)%list with (x :: (xs ++ ys)%list).
  now rewrite !concat_cons, IH, append_assoc.
Qed.

(** The document text holds, in this order, the line of [numNodes], the line
    of [numLinks] and, further down, the field [paths]. *)
Lemma Graph_body_lines (self : Graph) (d : pyval) (labels comments : bool) :
  exists before middle after,
    Graph_body self d labels comments
    = before
      ++ print_var "numNodes" (PyInt (len (nodes self))) labels 4
      ++ print_var "numLinks" (PyInt (len (links self))) labels 4
      ++ middle
      ++ print_var "paths" (PyList (paths self)) labels 4
      ++ after.
Proof.
  unfold Graph_body.
  match goal with
  | |- context [String.concat "" ?l] => rewrite <- (firstn_skipn 7 l)
  end.
  cbn [firstn skipn]. rewrite concat_app.
  match goal with
  | |- context [String.concat "" ?p ++ String.concat "" (?a :: ?b :: ?t)] =>
      set (before := String.concat "" p);
      rewrite (concat_cons a), (concat_cons b), <- (firstn_skipn 5 t)
  end.
  cbn [firstn skipn]. rewrite concat_app.
  match goal with
  | |- context [String.concat "" ?m ++ String.concat "" (?a :: ?t)] =>
      set (middle := String.concat "" m);
      rewrite (concat_cons a); set (rest := String.concat "" t)
  end.
  exists before, middle, (rest ++ "}").
  now rewrite <- !append_assoc.
Qed.

(** ** C5: three nodes and two edges *)

(** C5 (as amended).  For a graph of three distinct nodes and two edges
    between them on which [root] and [tree_link] are found, the assembly
    returns a document
    with three entries in [nodes] and two in [links]; the two links are, in
    edge order, the ids of the end handles of the two edges, each id one of
    0, 1, 2; and the document text holds the lines of [numNodes] = 3 and
    [numLinks] = 2. *)
Theorem three_nodes_two_edges (graph : AGraph) :
  length (graph_nodes graph) = 3%nat ->
  NoDup (handles graph) ->
  length (graph_edges graph) = 2%nat ->
  (forall edge, In edge (graph_edges graph) ->
                In (edge_0 edge) (handles graph) /\ In (edge_1 edge) (handles graph)) ->
  discovered graph "root" -> discovered graph "tree_link" ->
  exists doc e1 e2 l1 l2,
    from_graph graph = Ok doc
    /\ len (nodes doc) = 3 /\ len (links doc) = 2
    /\ graph_edges graph = [e1; e2] /\ links doc = [l1; l2]
    /\ dict_get (nodes doc) (edge_0 e1) = Some (source l1)
    /\ dict_get (nodes doc) (edge_1 e1) = Some (destination l1)
    /\ dict_get (nodes doc) (edge_0 e2) = Some (source l2)
    /\ dict_get (nodes doc) (edge_1 e2) = Some (destination l2)
    /\ Forall (fun id => id = 0 \/ id = 1 \/ id = 2)
              [source l1; destination l1; source l2; destination l2]
    /\ forall labels comments,
        exists text before after,
          Graph_serialize doc labels comments 0 = Ok text
          /\ text = before
                    ++ ("    " ++ _label "numNodes" labels ++ "3;" ++ nl)
                    ++ ("    " ++ _label "numLinks" labels ++ "2;" ++ nl)
                    ++ after.
Proof.
  intros Hn Hnd He Hends Hr Ht.
  destruct (scan_total graph Hnd Hends) as (l & f & Hs).
  pose proof (scan_keys _ _ _ _ Hs) as K.
  destruct (from_graph_total _ _ _ _ Hs (proj2 (K _) Hr) (proj2 (K _) Ht)) as [doc Hd].
  destruct (from_graph_Ok _ _ Hd) as (f' & Hs' & _ & _ & _ & Hdesc & _).
  rewrite Hs in Hs'. injection Hs' as En El _.
  destruct (scan_inv _ _ _ _ Hs) as (a1 & _ & _ & _ & Hel).
  destruct (edge_loop_values _ _ _ _ _ _ _ Hel) as (_ & _ & _ & _ & new & -> & F).
  cbn [app] in *.
  destruct (graph_edges graph) as [|e1 [|e2 [|e3 es]]]; try discriminate He.
  destruct new as [|l1 new]; [inversion F|].
  apply Forall2_cons_iff in F as [[A1 B1] F].
  destruct new as [|l2 new]; [inversion F|].
  apply Forall2_cons_iff in F as [[A2 B2] F].
  destruct new; [|inversion F].
  assert (R : forall h k, dict_get (enumerate_from 0 (handles graph)) h = Some k ->
                          k = 0 \/ k = 1 \/ k = 2).
  { intros h k H. apply enumerate_from_range in H.
    rewrite len_handles in H. unfold len in H. lia. }
  assert (Ln : len (nodes doc) = 3).
  { rewrite <- En. unfold len. rewrite enumerate_from_length.
    unfold handles. rewrite length_map. lia. }
  assert (Ll : len (links doc) = 2) by (now rewrite <- El).
  exists doc, e1, e2, l1, l2.
  split; [exact Hd|]. split; [exact Ln|]. split; [exact Ll|].
  split; [reflexivity|]. split; [now symmetry|].
  rewrite <- En.
  split; [exact A1|]. split; [exact B1|]. split; [exact A2|]. split; [exact B2|].
  split; [repeat (apply Forall_cons; [eapply R; eassumption|]); apply Forall_nil|].
  intros labels comments. unfold Graph_serialize, indentable. rewrite Hdesc, indent_zero.
  destruct (Graph_body_lines doc
              (PyStr (get_default (graph_attr graph) "description" "Generated by libsea.py"))
              labels comments) as (before & middle & after & E).
  eexists. exists before. eexists. split; [reflexivity|].
  rewrite E, Ln, Ll.
  replace (print_var "numNodes" (PyInt 3) labels 4)
    with ("    " ++ _label "numNodes" labels ++ "3;" ++ nl) by (now destruct labels).
  replace (print_var "numLinks" (PyInt 2) labels 4)
    with ("    " ++ _label "numLinks" labels ++ "2;" ++ nl) by (now destruct labels).
  reflexivity.
Qed.

Lemma three_nodes_two_edges_witness :
  exists doc,
    from_graph example_graph = Ok doc
    /\ len (nodes doc) = 3 /\ len (links doc) = 2
    /\ links doc = [ {| source := 0; destination := 1 |};
                     {| source := 1; destination := 2 |} ].
Proof.
  destruct (three_nodes_two_edges example_graph) as (doc & e1 & e2 & l1 & l2 & H).
  - reflexivity.
  - repeat constructor; cbn; intuition discriminate.
  - reflexivity.
  - intros edge [<-|[<-|[]]]; cbn; auto.
  - left. eexists. split; [left; reflexivity | left; reflexivity].
  - right. eexists. split; [left; reflexivity | left; reflexivity].
  - exists doc. destruct H as (Hd & Hn & Hl & _).
    split; [exact Hd|]. split; [exact Hn|]. split; [exact Hl|].
    pose proof Hd as Hd'. cbv in Hd'. injection Hd' as <-. reflexivity.
Defined.

(** C5, the input on which the claim as stated fails: three distinct nodes
    and two edges that carry no [root] attribute are not assembled. *)
Lemma plain_graph_not_assembled :
  length (graph_nodes example_plain) = 3%nat
  /\ NoDup (handles example_plain)
  /\ length (graph_edges example_plain) = 2%nat
  /\ from_graph example_plain = Raise (KeyError "root").
Proof.
  split; [reflexivity|]. split; [|split; reflexivity].
  repeat constructor; cbn; intuition discriminate.
Qed.

(** ** C9: the description field *)

(** C9.  The document made by the base constructor has no description, and
    rendering it raises the attribute error on [description] whatever the
    flags and the indent.  A document returned by [from_graph] has its
    description set: to the value the graph attributes hold under the key
    [description] when they hold one, and to the text [Generated by
    libsea.py] when they hold none; and its rendering returns a text.  The
    same is said on the entries of the graph attributes, whose keys are
    distinct as those of a Python dict are.  The last two parts run
    [from_graph] on a graph without the attribute and on one with it, and
    show the line of the description in the text of the second. *)
Theorem description_set_only_by_from_graph :
  (forall (name0 : string) (labels comments : bool) (indent : Z),
      description (Graph_init name0) = None
      /\ Graph_serialize (Graph_init name0) labels comments indent
         = Raise (AttributeError "description"))
  /\ (forall (graph : AGraph) (doc : Graph),
         from_graph graph = Ok doc ->
         description doc
         = Some (PyStr match dict_get (graph_attr graph) "description" with
                       | Some value => value
                       | None => "Generated by libsea.py"
                       end)
         /\ (forall value,
               NoDup (dict_keys (graph_attr graph)) ->
               In ("description", value) (graph_attr graph) ->
               description doc = Some (PyStr value))
         /\ ((forall value, ~ In ("description", value) (graph_attr graph)) ->
             description doc = Some (PyStr "Generated by libsea.py"))
         /\ forall (labels comments : bool) (indent : Z),
             exists text, Graph_serialize doc labels comments indent = Ok text)
  /\ (forall (d : list (string * string)) (default : string),
         get_default d "description" default
         = match dict_get d "description" with
           | Some value => value
           | None => default
           end)
  /\ (exists doc, from_graph example_graph = Ok doc
                  /\ description doc = Some (PyStr "Generated by libsea.py"))
  /\ (exists doc before after,
         from_graph example_described = Ok doc
         /\ description doc = Some (PyStr "A demo graph")
         /\ Graph_serialize doc true false 0
            = Ok (before ++ nl
                  ++ "    @description=" ++ chr DQUOTE ++ "A demo graph" ++ chr DQUOTE
                  ++ ";" ++ nl ++ after)).
Proof.
  split; [|split; [|split; [|split]]].
  - intros. split; reflexivity.
  - intros graph doc H. destruct (from_graph_Ok _ _ H) as (_ & _ & _ & _ & _ & Hd & _).
    unfold get_default in Hd. split; [exact Hd|]. split; [|split].
    + intros value Hn Hi. rewrite Hd.
      now rewrite (dict_get_NoDup _ _ _ Hn Hi).
    + intros Hn. rewrite Hd.
      destruct (dict_get (graph_attr graph) "description") as [value|] eqn:E;
        [|reflexivity].
      exfalso. exact (Hn value (dict_get_Some_In _ _ _ E)).
    + intros. unfold Graph_serialize. rewrite Hd. now eexists.
  - reflexivity.
  - eexists. split; reflexivity.
  - eexists. exists ("Graph" ++ nl ++ "{" ++ nl ++ "    @name=" ++ chr DQUOTE ++ "demo"
                     ++ chr DQUOTE ++ ";"). eexists.
    split; [reflexivity|]. split; [reflexivity|].
    vm_compute. reflexivity.
Qed.

(** ** C10: the empty list and the paths field *)

(** C10.  The empty List node renders at indent 0 as an opening bracket, an
    empty line and a closing bracket.  Every document returned by
    [from_graph] has an empty [paths], and its text holds the field [paths]
    as that block: the label when asked for, the opening bracket, an empty
    line, and the closing bracket with the terminator at the indent of the
    field.  The last part shows a graph for which [from_graph] does return. *)
Theorem empty_list_renders_blank_line :
  (forall labels, serialize (List []) labels 0 = "[" ++ nl ++ nl ++ "]")
  /\ (forall (graph : AGraph) (doc : Graph),
         from_graph graph = Ok doc ->
         paths doc = []
         /\ forall labels comments,
             exists text before after,
               Graph_serialize doc labels comments 0 = Ok text
               /\ text = before
                         ++ ("    " ++ _label "paths" labels ++ "[" ++ nl
                             ++ nl
                             ++ "    ];" ++ nl)
                         ++ after)
  /\ (exists doc, from_graph example_graph = Ok doc).
Proof.
  split; [|split].
  - reflexivity.
  - intros graph doc H.
    destruct (from_graph_Ok _ _ H) as (_ & _ & _ & _ & Hp & Hd & _).
    split; [exact Hp|]. intros labels comments.
    unfold Graph_serialize, indentable. rewrite Hd, indent_zero.
    destruct (Graph_body_lines doc
                (PyStr (get_default (graph_attr graph) "description"
                                    "Generated by libsea.py"))
                labels comments) as (before & middle & after & E).
    eexists. eexists. exists after. split; [reflexivity|].
    rewrite E, Hp.
    replace (print_var "paths" (PyList []) labels 4)
      with ("    " ++ _label "paths" labels ++ "[" ++ nl ++ nl ++ "    ];" ++ nl)
      by (now destruct labels).
    rewrite !append_assoc. reflexivity.
  - eexists. reflexivity.
Qed.

(** * Further properties of the code *)

(** ** Indentation *)

Lemma spaces_nat_add (n m : nat) :
  spaces_nat (n + m) = spaces_nat n ++ spaces_nat m.
Proof. induction n as [|n IH]; cbn; [reflexivity | now rewrite IH]. Qed.

Lemma indent_line_twice (a b : Z) (line : string) :
  0 <= a -> 0 <= b ->
  indent_line b (indent_line a line) = indent_line (a + b) line.
Proof.
  intros Ha Hb. unfold indent_line, spaces. destruct line as [|c line]; [reflexivity|].
  cbn [truthy].
  replace (Z.to_nat (a + b)) with (Z.to_nat b + Z.to_nat a)%nat by lia.
  rewrite spaces_nat_add, <- append_assoc.
  destruct (Z.to_nat a); reflexivity.
Qed.

(** X1.  Indenting by [a] and then by [b] is indenting by [a + b], for
    amounts that are not negative: nested renderers add their margins. *)
Theorem indent_twice (text : string) (a b : Z) :
  0 <= a -> 0 <= b ->
  _indent (_indent text a) b = _indent text (a + b).
Proof.
  intros Ha Hb.
  destruct (Z.eqb_spec a 0) as [->|Na]; [reflexivity|].
  destruct (Z.eqb_spec b 0) as [->|Nb]; [now rewrite indent_zero, Z.add_0_r|].
  unfold _indent at 1 3.
  destruct (Z.eqb_spec b 0) as [?|_]; [contradiction|].
  destruct (Z.eqb_spec (a + b) 0) as [?|_]; [lia|].
  rewrite split_lines_indent, map_map. f_equal.
  apply map_ext. intros line. now apply indent_line_twice.
Qed.

Lemma indent_twice_witness :
  _indent (_indent ("a" ++ nl ++ nl ++ "b") 4) 4 = _indent ("a" ++ nl ++ nl ++ "b") 8.
Proof. apply (indent_twice _ 4 4); lia. Defined.

(** X2.  An amount that is not positive leaves the text as it is: the
    prefix [amount * " "] is empty and joining the split lines gives the
    text back. *)
Theorem indent_nonpositive (text : string) (amount : Z) :
  amount <= 0 -> _indent text amount = text.
Proof.
  intros H. unfold _indent. destruct (amount =? 0); [reflexivity|].
  rewrite <- (join_split_lines text) at 2. f_equal.
  induction (split_lines text) as [|line rest IH]; [reflexivity|].
  cbn [map]. rewrite IH. f_equal.
  unfold indent_line, spaces. replace (Z.to_nat amount) with O by lia.
  now destruct (truthy line).
Qed.

Lemma indent_nonpositive_witness :
  _indent ("a" ++ nl ++ "b" ++ nl) (-3) = "a" ++ nl ++ "b" ++ nl.
Proof. apply indent_nonpositive. lia. Defined.

(** X3.  Indentation works line by line: it goes through a line feed
    between two texts, it keeps the number of lines, and it never removes
    or adds a line feed. *)
Theorem indent_line_by_line (a b : string) (amount : Z) :
  _indent (a ++ nl ++ b) amount = _indent a amount ++ nl ++ _indent b amount
  /\ length (split_lines (_indent a amount)) = length (split_lines a)
  /\ join nl (split_lines a) = a.
Proof.
  split; [apply indent_app_nl|]. split; [|apply join_split_lines].
  now rewrite split_lines_indent, length_map.
Qed.

(** ** The String scalar *)

Lemma escaped_class_backslash (c : ascii) :
  escaped_class c = false -> Ascii.eqb c BACKSLASH = false.
Proof.
  unfold escaped_class. cbn [existsb]. intros H.
  now apply orb_false_iff in H as [H _].
Qed.

Lemma unescape_re_sub_escape (s : string) : unescape (re_sub_escape s) = s.
Proof.
  induction s as [|c s IH]; [reflexivity|].
  cbn [re_sub_escape]. destruct (escaped_class c) eqn:E.
  - cbn [unescape]. rewrite Ascii.eqb_refl. now rewrite IH.
  - cbn [unescape]. rewrite (escaped_class_backslash _ E). now rewrite IH.
Qed.

(** X4.  The render-time escaping loses nothing: two values are escaped to
    the same text only if they are the same value, and dropping each
    escaping backslash gives the value back. *)
Theorem re_sub_escape_injective (a b : string) :
  (re_sub_escape a = re_sub_escape b <-> a = b)
  /\ unescape (re_sub_escape a) = a.
Proof.
  split; [|apply unescape_re_sub_escape]. split; [|now intros ->].
  intros H. rewrite <- (unescape_re_sub_escape a), <- (unescape_re_sub_escape b).
  now rewrite H.
Qed.

Lemma contains_replace_old (old : ascii) (new s : string) :
  contains old new = false -> contains old (replace old new s) = false.
Proof.
  intros Hn. induction s as [|c s IH]; [reflexivity|].
  cbn [replace]. destruct (Ascii.eqb c old) eqn:E.
  - now rewrite contains_app, Hn, IH.
  - cbn [contains]. now rewrite E, IH.
Qed.

Lemma contains_replace_other (c old : ascii) (new s : string) :
  contains c new = false -> contains c s = false ->
  contains c (replace old new s) = false.
Proof.
  intros Hn. induction s as [|d s IH]; [reflexivity|].
  cbn [contains replace]. intros H. apply orb_false_iff in H as [Hd Hs].
  destruct (Ascii.eqb d old).
  - now rewrite contains_app, Hn, IH.
  - cbn [contains]. now rewrite Hd, IH.
Qed.

Lemma contains_re_sub_escape (c : ascii) (s : string) :
  Ascii.eqb BACKSLASH c = false ->
  contains c (re_sub_escape s) = contains c s.
Proof.
  intros Hc. induction s as [|d s IH]; [reflexivity|].
  cbn [re_sub_escape]. destruct (escaped_class d); cbn [contains]; now rewrite ?Hc, IH.
Qed.

(** X5.  The value a String node holds after its constructor has no line
    feed and no carriage return, and the constructor changes nothing when it
    is given that value again.  So the rendered scalar holds no line feed
    either, and rendering it at an indent is rendering it at indent 0 behind
    that many spaces. *)
Theorem String_one_line (text : string) (labels : bool) (indent : Z) :
  (exists value,
      String_init text = String value
      /\ contains LF value = false /\ contains CR value = false
      /\ String_init value = String value)
  /\ contains LF (serialize (String_init text) labels 0) = false
  /\ serialize (String_init text) labels indent
     = spaces indent ++ serialize (String_init text) labels 0
  /\ ser (PyStr text) labels indent = spaces indent ++ ser (PyStr text) labels 0.
Proof.
  set (v := replace LF (chr BACKSLASH ++ "n") (replace CR (chr BACKSLASH ++ "r") text)).
  assert (Hlf : contains LF v = false) by (now apply contains_replace_old).
  assert (Hcr : contains CR v = false).
  { apply contains_replace_other; [reflexivity|]. now apply contains_replace_old. }
  assert (One : contains LF (serialize (String_init text) labels 0) = false).
  { rewrite String_serialize_text. unfold String_text, String_init. fold v.
    rewrite !contains_app, contains_re_sub_escape by reflexivity.
    now rewrite Hlf. }
  assert (Ind : serialize (String_init text) labels indent
                = spaces indent ++ serialize (String_init text) labels 0).
  { rewrite serialize_indent. apply indent_one_line; [reflexivity | exact One]. }
  split; [|split; [exact One | split; [exact Ind | exact Ind]]].
  exists v. split; [reflexivity|]. split; [exact Hlf|]. split; [exact Hcr|].
  unfold String_init. now rewrite (replace_absent CR), (replace_absent LF).
Qed.

(** ** Tuples *)

Lemma map_unlabelled (names : list string) (rendered : list string) :
  map (fun '(name, r) => _label name false ++ r ++ TERM) (combine names rendered)
  = map (fun r => r ++ TERM) (firstn (length names) rendered).
Proof.
  revert rendered. induction names as [|n names IH]; intros [|r rendered];
    cbn [combine map firstn length]; try reflexivity.
  now rewrite IH.
Qed.

(** X6.  A Tuple with field names renders one member per (name, value)
    pair that [zip] yields: values beyond the last name are left out without
    an error.  Without labels the names are not printed, so the text is that
    of the unnamed Tuple of the values that have a name. *)
Theorem Tuple_zip_truncates (names : list string) (values : list pyval)
        (labels : bool) (indent : Z) :
  names <> [] ->
  serialize (Tuple names values) labels indent
  = serialize (Tuple names (firstn (length names) values)) labels indent
  /\ serialize (Tuple names values) false indent
     = serialize (Tuple [] (firstn (length names) values)) false indent.
Proof.
  intros Hn. destruct names as [|n names]; [congruence|].
  unfold serialize, serialize_with, indentable, serialize_body, Tuple_serialize.
  split.
  - now rewrite <- firstn_map, <- combine_firstn_l.
  - now rewrite map_unlabelled, firstn_map.
Qed.

Lemma Tuple_zip_truncates_witness :
  serialize (Tuple ["a"] [PyInt 1; PyInt 2]) true 0
  = serialize (Tuple ["a"] [PyInt 1]) true 0.
Proof.
  refine (proj1 (Tuple_zip_truncates ["a"] [PyInt 1; PyInt 2] true 0 _)).
  discriminate.
Defined.

Lemma label_clean (name : string) (labels : bool) :
  contains LF name = false -> contains LF (_label name labels) = false.
Proof.
  intros H. destruct labels; [|reflexivity].
  unfold _label. rewrite !contains_app, H. reflexivity.
Qed.

(** The text of a link inside its braces. *)
Lemma ser_Link_val (l : Link) (labels : bool) (indent : Z) :
  ser (Link_val l) labels indent
  = spaces indent ++ "{" ++ _label "source" labels ++ str_int (source l) ++ "; "
    ++ _label "destination" labels ++ str_int (destination l) ++ ";}".
Proof.
  unfold Link_val. cbn [ser]. unfold serialize_with, indentable.
  cbn [serialize_body]. unfold Tuple_serialize. cbn [map combine join ser].
  unfold serialize_with, indentable. cbn [serialize_body]. rewrite !indent_zero.
  destruct (str_int_clean (source l)) as [S1 _].
  destruct (str_int_clean (destination l)) as [D1 _].
  rewrite indent_one_line.
  - unfold TERM. now rewrite <- !append_assoc.
  - reflexivity.
  - rewrite !contains_app, !label_clean, S1, D1 by reflexivity. reflexivity.
Qed.

Lemma ser_Link_val_clean (l : Link) (labels : bool) :
  contains LF (ser (Link_val l) labels 0) = false.
Proof.
  rewrite ser_Link_val.
  destruct (str_int_clean (source l)) as [S1 _].
  destruct (str_int_clean (destination l)) as [D1 _].
  rewrite !contains_app, !label_clean, S1, D1 by reflexivity. reflexivity.
Qed.

(** X7.  A link of the document, a [Link] namedtuple of two ids, goes
    through the dispatcher as a Tuple with the fields [source] and
    [destination] and renders on one line: both ids in decimal, each behind
    its label when labels are asked for and each followed by the terminator,
    with one space between them, inside braces, behind the indent. *)
Theorem Link_renders_on_one_line (l : Link) (labels : bool) (indent : Z) :
  ser (Link_val l) labels indent
  = spaces indent ++ "{" ++ _label "source" labels ++ str_int (source l) ++ "; "
    ++ _label "destination" labels ++ str_int (destination l) ++ ";}"
  /\ contains LF (ser (Link_val l) labels 0) = false.
Proof. split; [apply ser_Link_val | apply ser_Link_val_clean]. Qed.

(** ** Fields and Objects *)

Lemma truthy_app_r (a b : string) : truthy b = true -> truthy (a ++ b) = true.
Proof. destruct a; [trivial | reflexivity]. Qed.

Lemma print_var_split (name : string) (value : pyval) (labels : bool) (indent : Z) :
  print_var name value labels indent
  = _indent (_label name labels ++ ser value labels 0 ++ TERM) indent ++ nl.
Proof.
  unfold print_var, indentable.
  replace (_label name labels ++ ser value labels 0 ++ TERM ++ nl)
    with ((_label name labels ++ ser value labels 0 ++ TERM) ++ String.String LF "")
    by (unfold nl, chr; now rewrite <- !append_assoc).
  rewrite indent_app_nl.
  replace (_indent "" indent) with EmptyString
    by (unfold _indent; now destruct (indent =? 0)).
  reflexivity.
Qed.

Lemma print_var_one_line (name : string) (value : pyval) (labels : bool) (indent : Z) :
  contains LF name = false -> contains LF (ser value labels 0) = false ->
  print_var name value labels indent
  = spaces indent ++ _label name labels ++ ser value labels 0 ++ TERM ++ nl.
Proof.
  intros Hn Hv. rewrite print_var_split, indent_one_line.
  - now rewrite <- !append_assoc.
  - rewrite append_assoc. now apply truthy_app_r.
  - now rewrite !contains_app, label_clean, Hv.
Qed.

(** X8.  A field printed by [print_var] always ends in the terminator and
    one line feed, with the indent applied to what stands before that line
    feed.  When neither the name nor the rendered value holds a line feed,
    the field is a single line: the indent, the label if asked for, the
    value and the terminator.  A field whose value is None is the indent,
    the label if asked for, and the bare terminator. *)
Theorem print_var_terminates_line (name : string) (value : pyval)
        (labels : bool) (indent : Z) :
  print_var name value labels indent
  = _indent (_label name labels ++ ser value labels 0 ++ TERM) indent ++ nl
  /\ (contains LF name = false -> contains LF (ser value labels 0) = false ->
      print_var name value labels indent
      = spaces indent ++ _label name labels ++ ser value labels 0 ++ TERM ++ nl)
  /\ (contains LF name = false ->
      print_var name PyNone labels indent
      = spaces indent ++ _label name labels ++ TERM ++ nl).
Proof.
  split; [apply print_var_split|]. split; [apply print_var_one_line|].
  intros Hn. now rewrite print_var_one_line.
Qed.

Lemma concat_entries_lines (lines : list string) :
  Forall (fun line => contains LF line = false) lines ->
  split_lines (String.concat "" (map (fun line => line ++ nl) lines) ++ "}")
  = (lines ++ ["}"])%list.
Proof.
  induction lines as [|line lines IH]; intros H; [reflexivity|].
  inversion H as [|? ? Hl Hls]; subst.
  cbn [map]. rewrite concat_cons.
  replace ((line ++ nl) ++ String.concat "" (map (fun line0 => line0 ++ nl) lines))
    with (line ++ String.String LF
                    (String.concat "" (map (fun line0 => line0 ++ nl) lines)))
    by (unfold nl, chr; now rewrite <- append_assoc).
  rewrite <- append_assoc. cbn [append].
  rewrite split_lines_app by assumption. cbn [app]. f_equal.
  now apply IH.
Qed.

(** X9.  An Object whose keys and rendered values hold no line feed renders
    one line per entry, in the order of the mapping, between a line with the
    opening brace and a line with the closing brace: each entry line is four
    spaces, the label if asked for, the value and the terminator.  The empty
    Object is the two brace lines alone. *)
Theorem Object_one_line_per_entry (dict : list (string * pyval)) (labels : bool) :
  Forall (fun '(key, value) =>
            contains LF key = false /\ contains LF (ser value labels 0) = false) dict ->
  split_lines (serialize (Object dict) labels 0)
  = ("{" :: map (fun '(key, value) =>
                   ("    " ++ _label key labels ++ ser value labels 0 ++ TERM)%string)
                dict
         ++ ["}"])%list.
Proof.
  intros H. unfold serialize, serialize_with, indentable.
  rewrite indent_zero. cbn [serialize_body]. unfold Object_serialize.
  change ("{" ++ nl ++ ?x) with ("{" ++ String.String LF x).
  rewrite split_lines_app by reflexivity. f_equal.
  rewrite <- concat_entries_lines.
  - f_equal. f_equal. rewrite map_map. f_equal. apply map_ext_in.
    intros [key value] Hin. rewrite Forall_forall in H.
    destruct (H _ Hin) as [Hk Hv].
    pose proof (print_var_one_line key value labels 4 Hk Hv) as P.
    unfold print_var, indentable in P. rewrite P.
    unfold spaces. cbn [Z.to_nat Pos.to_nat Pos.iter_op Nat.add spaces_nat].
    now rewrite <- !append_assoc.
  - apply Forall_map. rewrite Forall_forall in *. intros [key value] Hin.
    destruct (H _ Hin) as [Hk Hv].
    now rewrite !contains_app, label_clean, Hv.
Qed.

Lemma Object_one_line_per_entry_witness :
  split_lines (serialize (Object [("k", PyStr "v"); ("n", PyInt 7)]) true 0)
  = ["{"; "    @k=" ++ chr DQUOTE ++ "v" ++ chr DQUOTE ++ ";"; "    @n=7;"; "}"].
Proof.
  apply (Object_one_line_per_entry [("k", PyStr "v"); ("n", PyInt 7)] true).
  repeat constructor.
Defined.

(** ** The value tables built by the scanning loops *)



Lemma seen_add_In (seen : list string) (name x : string) :
  In x (seen_add seen name) <-> x = name \/ In x seen.
Proof.
  unfold seen_add. destruct (existsb (String.eqb name) seen) eqn:E.
  - apply existsb_eqb_In in E. intuition congruence.
  - rewrite in_app_iff. cbn [In]. intuition congruence.
Qed.



Lemma fold_seen_add_In (names seen : list string) (x : string) :
  In x (fold_left seen_add names seen) <-> In x seen \/ In x names.
Proof.
  revert seen. induction names as [|n names IH]; intros seen; cbn [fold_left In].
  - tauto.
  - rewrite IH, seen_add_In. intuition congruence.
Qed.

Section ValueTable.
Variable set : list (string * bucket) -> string -> Z -> pyval -> list (string * bucket).
Variable table untouched : bucket -> list (Z * pyval).

Hypothesis table_set : forall attributes n i v n',
    table (bucket_of (set attributes n i v) n')
    = if String.eqb n n' then int_dict_set (table (bucket_of attributes n')) i v
      else table (bucket_of attributes n').
Hypothesis untouched_set : forall attributes n i v n',
    untouched (bucket_of (set attributes n i v) n') = untouched (bucket_of attributes n').
Hypothesis set_keys : forall attributes n i v,
    dict_keys (set attributes n i v) = seen_add (dict_keys attributes) n.




End ValueTable.











(** ** The attribute table of the document *)






(** ** When the assembly returns, and what it raises *)

Lemma edge_loop_raises todo :
  forall i node_order links0 attributes e,
    edge_loop todo i node_order links0 attributes = Raise e ->
    exists edge h,
      In edge todo /\ (h = edge_0 edge \/ h = edge_1 edge)
      /\ dict_get node_order h = None /\ e = KeyError h.
Proof.
  induction todo as [|edge rest IH]; intros i node_order links0 attributes e H.
  - discriminate.
  - cbn [edge_loop] in H. unfold node_id in H.
    destruct (dict_get node_order (edge_0 edge)) as [id1|] eqn:E0.
    2:{ injection H as <-. exists edge, (edge_0 edge). cbn [In]. auto. }
    destruct (dict_get node_order (edge_1 edge)) as [id2|] eqn:E1.
    2:{ injection H as <-. exists edge, (edge_1 edge). cbn [In]. auto. }
    cbn [bind] in H.
    destruct (attr_loop_total set_linkValue (edge_attr edge)
                (dict_keys (edge_attr edge)) i attributes (incl_refl _)) as [a1 E].
    rewrite E in H. cbn [bind] in H.
    destruct (IH _ _ _ _ _ H) as (ed & h & Hin & Hh & Hn & He).
    exists ed, h. cbn [In]. auto.
Qed.

Lemma Forall2_In_l {A B : Type} (R : A -> B -> Prop) (l : list A) (l' : list B) (a : A) :
  Forall2 R l l' -> In a l -> exists b, In b l' /\ R a b.
Proof.
  induction 1 as [|x y l l' Hxy _ IH]; intros Hin; [destruct Hin|].
  destruct Hin as [<-|Hin].
  - exists y. split; [now left | assumption].
  - destruct (IH Hin) as (b & Hb & Hr). exists b. split; [now right | assumption].
Qed.

Lemma scan_Ok_inv (graph : AGraph) node_order links0 found :
  scan graph = Ok (node_order, links0, found) ->
  NoDup (handles graph) /\ ends_known graph
  /\ node_order = enumerate_from 0 (handles graph)
  /\ Forall2 (fun edge l =>
                dict_get node_order (edge_0 edge) = Some (source l)
                /\ dict_get node_order (edge_1 edge) = Some (destination l))
             (graph_edges graph) links0.
Proof.
  intros H. destruct (scan_inv _ _ _ _ H) as (a1 & _ & Hn & Hl & He).
  assert (Hnd : NoDup (handles graph)).
  { apply number_length. rewrite len_handles, <- Hn. exact Hl. }
  destruct (edge_loop_values _ _ _ _ _ _ _ He) as (_ & _ & _ & _ & new & -> & F).
  cbn [app] in *.
  assert (En : node_order = enumerate_from 0 (handles graph)).
  { rewrite Hn. now rewrite number_fresh by (assumption || (intros ? ? [])). }
  split; [exact Hnd|]. split; [|split; [exact En | exact F]].
  intros edge Hin. destruct (Forall2_In_l _ _ _ _ F Hin) as (l & _ & H0 & H1).
  rewrite <- (enumerate_from_keys (handles graph) 0), <- En.
  split; apply dict_get_In; congruence.
Qed.

Lemma scan_raises (graph : AGraph) (e : exn) :
  scan graph = Raise e ->
  (e = Exception "Node collision" /\ ~ NoDup (handles graph))
  \/ (NoDup (handles graph)
      /\ exists edge h,
          In edge (graph_edges graph) /\ (h = edge_0 edge \/ h = edge_1 edge)
          /\ ~ In h (handles graph) /\ e = KeyError h).
Proof.
  unfold scan. intros H.
  destruct (node_loop_total (graph_nodes graph) 0 [] []) as [a1 E].
  rewrite E in H. cbn [bind] in H. fold (handles graph) in H.
  destruct (Z.eqb_spec (len (number (handles graph) 0 [])) (len (graph_nodes graph)))
    as [Hl|Hl]; cbn [negb] in H.
  - right. rewrite <- len_handles in Hl. apply number_length in Hl.
    split; [exact Hl|].
    destruct (edge_loop (graph_edges graph) 0 (number (handles graph) 0 []) [] a1)
      as [[l f]|e'] eqn:Ee; [discriminate|].
    cbn [bind] in H. injection H as <-.
    destruct (edge_loop_raises _ _ _ _ _ _ Ee) as (edge & h & Hin & Hh & Hn & ->).
    exists edge, h. repeat split; try assumption.
    intros Hh'. assert (In h (dict_keys (number (handles graph) 0 [])))
      by (apply number_keys; now right).
    apply dict_get_In in H. contradiction.
  - left. injection H as <-. split; [reflexivity|].
    intros Hnd. apply Hl. rewrite <- len_handles. now apply number_length.
Qed.

(** X11.  [from_graph] returns a document exactly for the graphs whose node
    iterator yields no handle twice, whose edges all end in handles of the
    graph, and on which both [root] and [tree_link] are found as attribute
    names. *)
Theorem from_graph_returns_iff (graph : AGraph) :
  (exists doc, from_graph graph = Ok doc)
  <-> NoDup (handles graph) /\ ends_known graph
      /\ discovered graph "root" /\ discovered graph "tree_link".
Proof.
  split.
  - intros [doc H]. destruct (from_graph_Ok _ _ H) as (f & Hs & Hr & Ht & _).
    destruct (scan_Ok_inv _ _ _ _ Hs) as (Hnd & Hk & _).
    pose proof (scan_keys _ _ _ _ Hs) as K.
    split; [exact Hnd|]. split; [exact Hk|]. now rewrite <- !K.
  - intros (Hnd & Hk & Hr & Ht). destruct (scan_total graph Hnd Hk) as (l & f & Hs).
    pose proof (scan_keys _ _ _ _ Hs) as K.
    apply (from_graph_total _ _ _ _ Hs); now apply K.
Qed.

(** X12.  Every failure of [from_graph] is one of four, tested in this
    order: the node collision error when a handle repeats; the lookup
    failure naming an end of an edge that is not a handle of the graph; the
    lookup failure naming [root] when that attribute name is found nowhere;
    the lookup failure naming [tree_link] when [root] is found and
    [tree_link] is not.  No other exception is raised: in particular the
    attribute lookups of the scanning loops and the indexing of the
    definitions never fail. *)
Theorem from_graph_errors (graph : AGraph) (e : exn) :
  from_graph graph = Raise e ->
  (e = Exception "Node collision" /\ ~ NoDup (handles graph))
  \/ (NoDup (handles graph)
      /\ exists edge h,
          In edge (graph_edges graph) /\ (h = edge_0 edge \/ h = edge_1 edge)
          /\ ~ In h (handles graph) /\ e = KeyError h)
  \/ (NoDup (handles graph) /\ ends_known graph
      /\ ~ discovered graph "root" /\ e = KeyError "root")
  \/ (NoDup (handles graph) /\ ends_known graph
      /\ discovered graph "root" /\ ~ discovered graph "tree_link"
      /\ e = KeyError "tree_link").
Proof.
  intros H. destruct (scan graph) as [[[o l] f]|e'] eqn:Hs.
  - destruct (scan_Ok_inv _ _ _ _ Hs) as (Hnd & Hk & _).
    pose proof (scan_keys _ _ _ _ Hs) as K.
    destruct (from_graph_after_scan _ _ _ _ Hs) as (L & E & Ha & Ho & _).
    pose proof (materialize_cases L o l f Ha Ho) as M.
    rewrite <- E, H in M. rewrite !K in M.
    destruct M as [(-> & M)|(-> & M1 & M2)].
    + right. right. left. auto.
    + right. right. right. auto.
  - assert (e' = e) as -> by (unfold from_graph in H; rewrite Hs in H; now injection H).
    destruct (scan_raises _ _ Hs) as [?|?]; auto.
Qed.

Lemma from_graph_errors_witness :
  ~ NoDup (handles example_collision)
  /\ ~ discovered example_no_tree_link "tree_link".
Proof.
  split.
  - destruct (from_graph_errors example_collision _ eq_refl)
      as [[_ H]|[(_ & ? & ? & _ & _ & _ & H)|[(_ & _ & _ & H)|(_ & _ & _ & _ & H)]]];
      [exact H | discriminate H | discriminate H | discriminate H].
  - destruct (from_graph_errors example_no_tree_link _ eq_refl)
      as [[H _]|[(_ & edge & h & Hin & Hh & _ & H)|[(_ & _ & _ & H)|(_ & _ & _ & H & _)]]];
      [discriminate H | | discriminate H | exact H].
    injection H as <-. exfalso.
    destruct Hin as [<-|[]]. destruct Hh as [Hh|Hh]; discriminate Hh.
Defined.

(** X13.  A returned document has as many entries in [nodes] as the graph
    has nodes and as many links as the graph has edges.  The links follow
    the edges in iteration order, and each holds the ids that [nodes] gives
    to the two ends of its edge, both at least 0 and below the number of
    nodes. *)
Theorem links_follow_edges (graph : AGraph) (doc : Graph) :
  from_graph graph = Ok doc ->
  len (nodes doc) = len (graph_nodes graph)
  /\ len (links doc) = len (graph_edges graph)
  /\ Forall2 (fun edge l =>
                dict_get (nodes doc) (edge_0 edge) = Some (source l)
                /\ dict_get (nodes doc) (edge_1 edge) = Some (destination l)
                /\ 0 <= source l < len (graph_nodes graph)
                /\ 0 <= destination l < len (graph_nodes graph))
             (graph_edges graph) (links doc).
Proof.
  intros H. destruct (from_graph_Ok _ _ H) as (f & Hs & _).
  destruct (scan_Ok_inv _ _ _ _ Hs) as (Hnd & _ & En & F).
  split; [|split].
  - rewrite En, <- len_handles. unfold len. now rewrite enumerate_from_length.
  - unfold len. now rewrite (Forall2_length F).
  - eapply Forall2_impl; [|exact F]. cbn beta. intros edge l [H0 H1].
    split; [exact H0|]. split; [exact H1|].
    rewrite En in H0, H1. apply enumerate_from_range in H0, H1.
    rewrite len_handles in H0, H1. lia.
Qed.

Lemma links_follow_edges_witness :
  exists doc,
    from_graph example_graph = Ok doc
    /\ len (nodes doc) = 3 /\ len (links doc) = 2.
Proof.
  eexists. split; [reflexivity|].
  destruct (links_follow_edges example_graph _ eq_refl) as (Hn & Hl & _).
  split; [exact Hn | exact Hl].
Defined.

(** ** Lists of one-line elements *)

Lemma indent_join_lines (lines : list string) (amount : Z) :
  Forall (fun line => truthy line = true /\ contains LF line = false) lines ->
  _indent (join ("," ++ nl) lines) amount
  = join ("," ++ nl) (map (fun line => spaces amount ++ line) lines).
Proof.
  induction lines as [|line rest IH]; intros H.
  - unfold _indent. now destruct (amount =? 0).
  - inversion H as [|? ? [Ht Hc] Hrest]; subst. destruct rest as [|line' rest].
    + cbn [join map]. now apply indent_one_line.
    + change (join ("," ++ nl) (line :: line' :: rest))
        with (line ++ ("," ++ nl) ++ join ("," ++ nl) (line' :: rest)).
      replace (line ++ ("," ++ nl) ++ join ("," ++ nl) (line' :: rest))
        with ((line ++ ",") ++ String.String LF (join ("," ++ nl) (line' :: rest)))
        by (unfold nl, chr; now rewrite <- !append_assoc).
      rewrite indent_app_nl, IH by assumption.
      rewrite indent_one_line.
      * cbn [map]. change (join ("," ++ nl) (?x :: ?y :: ?z))
          with (x ++ ("," ++ nl) ++ join ("," ++ nl) (y :: z)).
        unfold nl, chr. now rewrite <- !append_assoc.
      * now apply truthy_app_r.
      * now rewrite contains_app, Hc.
Qed.

(** X14.  A List whose elements each render as one non-empty line through a
    node (not through the fallback of the dispatcher) renders, at any
    indent, as the opening bracket at that indent, one line per element at
    four more columns, each but the last followed by a comma, and the
    closing bracket at the indent. *)
Theorem List_one_line_per_element (items : list pyval) (labels : bool) (indent : Z) :
  Forall (fun item => dispatch item <> None
                      /\ truthy (ser item labels 0) = true
                      /\ contains LF (ser item labels 0) = false) items ->
  serialize (List items) labels indent
  = spaces indent ++ "[" ++ nl
    ++ join ("," ++ nl)
            (map (fun item => spaces indent ++ "    " ++ ser item labels 0) items)
    ++ nl ++ spaces indent ++ "]".
Proof.
  intros H. unfold serialize, serialize_with, indentable, serialize_body, List_serialize.
  set (body := join ("," ++ nl) (map (fun item => ser item labels 4) items)).
  change ("[" ++ nl ++ body ++ nl ++ "]")
    with ("[" ++ String.String LF (body ++ String.String LF "]")).
  rewrite !indent_app_nl.
  rewrite (indent_one_line "["), (indent_one_line "]") by reflexivity.
  assert (B : body = join ("," ++ nl) (map (fun item => "    " ++ ser item labels 0) items)).
  { unfold body. f_equal. apply map_ext_in. intros item Hin.
    rewrite Forall_forall in H. destruct (H _ Hin) as (Hd & Ht & Hc).
    rewrite (ser_dispatch item labels 4), (ser_dispatch item labels 0).
    rewrite (ser_dispatch item labels 0) in Ht, Hc.
    destruct (dispatch item) as [e|]; [|congruence].
    rewrite serialize_indent. now apply indent_one_line. }
  rewrite B, indent_join_lines.
  - rewrite map_map, <- append_assoc. reflexivity.
  - apply Forall_map. eapply Forall_impl; [|exact H]. cbn beta.
    intros item (_ & Ht & Hc). split; [reflexivity|].
    now rewrite contains_app, Hc.
Qed.

Lemma List_one_line_per_element_witness :
  serialize (List [PyInt 1; PyStr "a|b"; PyObj (Bool true)]) false 2
  = "  [" ++ nl
    ++ "      1," ++ nl
    ++ "      " ++ chr DQUOTE ++ "a" ++ chr BACKSLASH ++ "|b" ++ chr DQUOTE ++ "," ++ nl
    ++ "      T" ++ nl
    ++ "  ]".
Proof.
  apply (List_one_line_per_element [PyInt 1; PyStr "a|b"; PyObj (Bool true)] false 2).
  repeat constructor; discriminate.
Defined.

(** X15.  The [links] field of a document, as [Graph.serialize] prints it:
    the field name and the opening bracket on a line at four columns, one
    line per link at eight columns -- the two ids in braces, a comma behind
    each link but the last -- and the closing bracket with the terminator at
    four columns.  With no link the field is the two bracket lines around an
    empty line. *)
Theorem links_field_text (links0 : list Link) (labels : bool) :
  print_var "links" (PyList (map Link_val links0)) labels 4
  = "    " ++ _label "links" labels ++ "[" ++ nl
    ++ join ("," ++ nl)
            (map (fun l => "        {" ++ _label "source" labels ++ str_int (source l)
                           ++ "; " ++ _label "destination" labels
                           ++ str_int (destination l) ++ ";}") links0)
    ++ nl ++ "    ];" ++ nl.
Proof.
  set (lines := map (fun l => "    " ++ ser (Link_val l) labels 0) links0).
  assert (E0 : ser (PyList (map Link_val links0)) labels 0
               = "[" ++ nl ++ join ("," ++ nl) lines ++ nl ++ "]").
  { cbn [ser]. unfold serialize_with, indentable, serialize_body, List_serialize.
    rewrite indent_zero, map_map. do 3 f_equal. unfold lines. f_equal.
    apply map_ext. intros l.
    now rewrite (ser_Link_val l labels 4), (ser_Link_val l labels 0). }
  assert (Hl : Forall (fun line => truthy line = true /\ contains LF line = false) lines).
  { apply Forall_map, Forall_forall. intros l _. split; [reflexivity|].
    now rewrite contains_app, ser_Link_val_clean. }
  rewrite print_var_split, E0.
  replace (_label "links" labels ++ ("[" ++ nl ++ join ("," ++ nl) lines ++ nl ++ "]") ++ TERM)
    with ((_label "links" labels ++ "[")
            ++ String.String LF (join ("," ++ nl) lines ++ String.String LF "];"))
    by (unfold nl, chr, TERM;
        repeat first [rewrite <- append_assoc | progress cbn [append]]; reflexivity).
  rewrite !indent_app_nl, indent_join_lines by assumption.
  rewrite (indent_one_line (_label "links" labels ++ "[")), (indent_one_line "];");
    try reflexivity; try (now destruct labels).
  unfold lines. rewrite map_map.
  replace (map (fun l => spaces 4 ++ "    " ++ ser (Link_val l) labels 0) links0)
    with (map (fun l => "        {" ++ _label "source" labels ++ str_int (source l)
                        ++ "; " ++ _label "destination" labels
                        ++ str_int (destination l) ++ ";}") links0)
    by (apply map_ext; intros l; now rewrite ser_Link_val).
  unfold nl, chr, spaces. cbn [Z.to_nat Pos.to_nat Pos.iter_op Nat.add spaces_nat].
  repeat first [rewrite <- append_assoc | progress cbn [append]]. reflexivity.
Qed.

(** ** The fixed parts of the document *)


